(** * Benno-Server: the user resolver (authentication, sessions, reset tokens)

    A shallow embedding of [UserResolver] (register, login, logout,
    forgotPassword, changePassword, me and the [email] field resolver) and of
    [sendEmail], together with the collaborators they call: the relational
    store behind the [User] entity, the Redis key-value store, the
    express-session record of the connection, the mail transport, argon2 and
    the uuid generator.

    Conventions.
    - A JavaScript string is a [string]; one [ascii] stands for one UTF-16
      code unit, so [String.length] is [.length].
    - A JavaScript number that holds a row id is a [Z]; [NaN], which only
      [parseInt] can produce here, is the [None] of [option Z].
    - An [async] function is a computation in the monad [Async]: it threads
      the [World] and either resolves with a value or rejects with an
      exception.  Every call that leaves the resolver is recorded, in order,
      in the [trace] of the world. *)

From Stdlib Require Import ZArith Lia Ascii String.
From stdpp Require Import gmap strings list.

Local Open Scope string_scope.
Local Open Scope Z_scope.

(** ** JavaScript built-ins used by the resolver *)

Module JS.

(** [s.includes(search)]: [search] occurs in [s] as a substring. *)
Fixpoint includes (s search : string) : bool :=
  if String.prefix search s then true
  else match s with
       | EmptyString => false
       | String _ s' => includes s' search
       end.

(** A value is falsy when [!v] is true: the empty string, the number 0,
    [undefined] and [null]. *)
Definition falsy_string (s : string) : bool :=
  match s with EmptyString => true | String _ _ => false end.

Definition falsy_number (n : Z) : bool := n =? 0.

Definition code (c : ascii) : Z := Z.of_nat (nat_of_ascii c).

Definition digit_char (d : Z) : ascii := ascii_of_nat (Z.to_nat (48 + d)).

(** Decimal digits of a non-negative integer, most significant first,
    pushed in front of [acc]. *)
Fixpoint digits_aux (fuel : nat) (n : Z) (acc : string) : string :=
  match fuel with
  | O => acc
  | S fuel' =>
      let acc' := String (digit_char (n mod 10)) acc in
      if n / 10 =? 0 then acc' else digits_aux fuel' (n / 10) acc'
  end.

Definition digits (n : Z) : string :=
  digits_aux (S (Z.to_nat (Z.log2 n))) n "".

(** [String(n)] for an integral number: what ioredis stores when it is
    handed a number as a value. *)
Definition number_to_string (n : Z) : string :=
  if n <? 0 then String "-" (digits (- n)) else digits n.

(** White space that [parseInt] skips (the code units below 256). *)
Definition is_white_space (c : ascii) : bool :=
  let n := code c in
  ((9 <=? n) && (n <=? 13)) || (n =? 32) || (n =? 160).

Fixpoint trim_start (s : string) : string :=
  match s with
  | EmptyString => EmptyString
  | String c s' => if is_white_space c then trim_start s' else s
  end.

(** The value of [c] as a digit of the given radix, if it is one. *)
Definition digit_val (radix : Z) (c : ascii) : option Z :=
  let n := code c in
  let v := if (48 <=? n) && (n <=? 57) then Some (n - 48)
           else if (97 <=? n) && (n <=? 122) then Some (n - 87)
           else if (65 <=? n) && (n <=? 90) then Some (n - 55)
           else None in
  match v with
  | Some d => if d <? radix then Some d else None
  | None => None
  end.

(** The longest prefix of digits, read left to right; [acc] is [None]
    as long as no digit was read. *)
Definition so_far (acc : option Z) : Z :=
  match acc with Some a => a | None => 0 end.

Fixpoint parse_digits (radix : Z) (s : string) (acc : option Z) : option Z :=
  match s with
  | EmptyString => acc
  | String c s' =>
      match digit_val radix c with
      | Some d => parse_digits radix s' (Some (radix * so_far acc + d))
      | None => acc
      end
  end.

Definition strip_sign (s : string) : Z * string :=
  match s with
  | String "-" s' => (-1, s')
  | String "+" s' => (1, s')
  | _ => (1, s)
  end.

Definition strip_hex_prefix (s : string) : option string :=
  match s with
  | String "0" (String "x" s') => Some s'
  | String "0" (String "X" s') => Some s'
  | _ => None
  end.

(** [parseInt(s)] without a radix argument; [None] is [NaN].  The result is
    the exact integer, as it is for every id the table can hold. *)
Definition parseInt (s : string) : option Z :=
  let '(sign, s1) := strip_sign (trim_start s) in
  let magnitude := match strip_hex_prefix s1 with
                   | Some s2 => parse_digits 16 s2 None
                   | None => parse_digits 10 s1 None
                   end in
  match magnitude with
  | Some m => Some (sign * m)
  | None => None
  end.

Definition is_decimal_digit (c : ascii) : bool :=
  (48 <=? code c) && (code c <=? 57).

Fixpoint all_decimal (s : string) : bool :=
  match s with
  | EmptyString => true
  | String c s' => is_decimal_digit c && all_decimal s'
  end.

End JS.


(** ** Data model *)

(** The [User] entity, as the resolver uses it: a numeric [id], and the
    [username], [email] and (hashed) [password] columns. *)
Module User.
Record t := mk {
  id : Z;
  username : string;
  email : string;
  password : string }.
End User.
Abbreviation User := User.t.

Module RegisterInput.
Record t := mk {
  username : string;
  email : string;
  password : string }.
End RegisterInput.
Abbreviation RegisterInput := RegisterInput.t.

Module LoginInput.
Record t := mk {
  email : string;
  password : string }.
End LoginInput.
Abbreviation LoginInput := LoginInput.t.

Record FieldError := mkFieldError {
  field : string;
  message : string }.

(** [UserResponse]: both fields are optional. *)
Record UserResponse := mkUserResponse {
  user : option User;
  errors : option (list FieldError) }.

Definition response_user (u : User) : UserResponse :=
  {| user := Some u; errors := None |}.

Definition response_error (f m : string) : UserResponse :=
  {| user := None; errors := Some [ {| field := f; message := m |} ] |}.

(** [req.session]: [userId] is optional. *)
Record Session := mkSession { userId : option Z }.

(** What a rejected promise carries. *)
Inductive Exn :=
| TypeError (msg : string)
| QueryFailedError (code detail : option string)
| ReplyError (msg : string)
| TransportError (msg : string).

Definition exn_code (e : Exn) : option string :=
  match e with QueryFailedError c _ => c | _ => None end.

Definition exn_detail (e : Exn) : option string :=
  match e with QueryFailedError _ d => d | _ => None end.

(** The calls that leave the resolver, as they are recorded in the trace. *)
Inductive Event :=
| EFindOneByEmail (email : string)
| EFindOneById (id : option Z)
| EInsert (username email password : string)
| EUpdatePassword (id : Z) (password : string)
| EHash (plain : string)
| EVerify (digest plain : string)
| ERedisSet (key value : string) (ex : Z)
| ERedisGet (key : string)
| ERedisDel (key : string)
| ESessionBind (id : Z)
| ESessionDestroy
| EClearCookie (name : string)
| ESendMail (to html : string).

(** Everything a request can read or change.
    - [users], [next_id]: the rows of the [user] table and its id sequence;
    - [redis], [now]: the key-value store, each key with its value and the
      second at which it expires, and the clock in seconds;
    - [session], [cookie]: the session record of this connection ([None] once
      destroyed; the middleware then hands out a fresh anonymous one) and
      whether the client still holds the session cookie;
    - [store_fault], [smtp_fault]: the error the session store, respectively
      the mail transport, answers with, if it is failing;
    - [outbox]: the mails delivered; [entropy]: how many random values were
      drawn; [trace]: the calls made so far, oldest first. *)
Record World := mkWorld {
  users : list User;
  next_id : Z;
  redis : gmap string (string * Z);
  now : Z;
  session : option Session;
  cookie : bool;
  store_fault : option string;
  smtp_fault : option string;
  outbox : list (string * string);
  entropy : nat;
  trace : list Event }.

Definition set_users (f : list User → list User) (w : World) : World :=
  mkWorld (f (users w)) (next_id w) (redis w) (now w) (session w) (cookie w)
          (store_fault w) (smtp_fault w) (outbox w) (entropy w) (trace w).

Definition set_next_id (f : Z → Z) (w : World) : World :=
  mkWorld (users w) (f (next_id w)) (redis w) (now w) (session w) (cookie w)
          (store_fault w) (smtp_fault w) (outbox w) (entropy w) (trace w).

Definition set_redis (f : gmap string (string * Z) → gmap string (string * Z))
    (w : World) : World :=
  mkWorld (users w) (next_id w) (f (redis w)) (now w) (session w) (cookie w)
          (store_fault w) (smtp_fault w) (outbox w) (entropy w) (trace w).

Definition set_now (f : Z → Z) (w : World) : World :=
  mkWorld (users w) (next_id w) (redis w) (f (now w)) (session w) (cookie w)
          (store_fault w) (smtp_fault w) (outbox w) (entropy w) (trace w).

Definition set_session (s : option Session) (w : World) : World :=
  mkWorld (users w) (next_id w) (redis w) (now w) s (cookie w)
          (store_fault w) (smtp_fault w) (outbox w) (entropy w) (trace w).

Definition set_cookie (c : bool) (w : World) : World :=
  mkWorld (users w) (next_id w) (redis w) (now w) (session w) c
          (store_fault w) (smtp_fault w) (outbox w) (entropy w) (trace w).

Definition set_outbox (f : list (string * string) → list (string * string))
    (w : World) : World :=
  mkWorld (users w) (next_id w) (redis w) (now w) (session w) (cookie w)
          (store_fault w) (smtp_fault w) (f (outbox w)) (entropy w) (trace w).

Definition set_entropy (f : nat → nat) (w : World) : World :=
  mkWorld (users w) (next_id w) (redis w) (now w) (session w) (cookie w)
          (store_fault w) (smtp_fault w) (outbox w) (f (entropy w)) (trace w).

Definition set_trace (f : list Event → list Event) (w : World) : World :=
  mkWorld (users w) (next_id w) (redis w) (now w) (session w) (cookie w)
          (store_fault w) (smtp_fault w) (outbox w) (entropy w) (f (trace w)).

(** Time passing between two requests. *)
Definition advance (d : Z) (w : World) : World := set_now (λ t, t + d) w.

(** ** Promises *)

Inductive Outcome (A : Type) :=
| Resolved (a : A)
| Rejected (e : Exn).
Arguments Resolved {A} a.
Arguments Rejected {A} e.

(** An [async] computation: run on a world, it resolves or rejects and
    leaves the world as changed up to that point. *)
Definition Async (A : Type) : Type := World → Outcome A * World.

#[global] Instance Async_ret : MRet Async :=
  λ A a w, (Resolved a, w).

(** [await]: a rejection of the awaited promise is thrown on. *)
#[global] Instance Async_bind : MBind Async :=
  λ A B k m w,
    match m w with
    | (Resolved a, w') => k a w'
    | (Rejected e, w') => (Rejected e, w')
    end.

Definition reject {A : Type} (e : Exn) : Async A := λ w, (Rejected e, w).

(** [try { m } catch (error) { handler }] *)
Definition try_catch {A : Type} (m : Async A) (handler : Exn → Async A)
    : Async A :=
  λ w, match m w with
       | (Resolved a, w') => (Resolved a, w')
       | (Rejected e, w') => handler e w'
       end.

Definition read {A : Type} (f : World → A) : Async A := λ w, (Resolved (f w), w).

Definition modify (f : World → World) : Async unit := λ w, (Resolved tt, f w).

Definition emit (e : Event) : Async unit :=
  modify (set_trace (λ t, (t ++ [e])%list)).

(** ** The collaborators *)

(** *** The [User] table

    The table is held in memory and answers every query.  The failures it
    raises are the unique violation of an insert (PostgreSQL's error 23505,
    whose [detail] names the column and the value) and the rejection of a
    [NaN] id (error 22P02). *)

(** The first row with the given email, respectively id. *)
Definition find_by_email (email : string) (rows : list User) : option User :=
  List.find (λ u, String.eqb (User.email u) email) rows.

Definition find_by_id (id : Z) (rows : list User) : option User :=
  List.find (λ u, User.id u =? id) rows.

Arguments find_by_email : simpl never.
Arguments find_by_id : simpl never.

(** [User.findOne({ where: { email } })] *)
Definition User_findOne_where_email (email : string) : Async (option User) :=
  emit (EFindOneByEmail email);;
  read (λ w, find_by_email email (users w)).

(** [User.findOne(id)] *)
Definition User_findOne (id : option Z) : Async (option User) :=
  emit (EFindOneById id);;
  match id with
  | Some i => read (λ w, find_by_id i (users w))
  | None => reject (QueryFailedError (Some "22P02") None)
  end.

Definition unique_violation (column value : string) : Exn :=
  QueryFailedError (Some "23505")
    (Some ("Key (" +:+ column +:+ ")=(" +:+ value +:+ ") already exists.")).

(** Modelled from the spec: the entity file (entitites/User), which
    declares the columns and their constraints, is not among the sources; the
    data model of the specification makes [username] and [email] globally
    unique and [id] numeric.  This is
    [insert().into(User).values({...}).returning("*").execute()], giving
    [result.raw[0]]: the new row gets the next id of the sequence. *)
Definition User_insert (username email password : string) : Async User :=
  emit (EInsert username email password);;
  rows ← read users;
  if existsb (λ u, String.eqb (User.username u) username) rows
  then reject (unique_violation "username" username)
  else if existsb (λ u, String.eqb (User.email u) email) rows
  then reject (unique_violation "email" email)
  else
    i ← read next_id;
    let u := User.mk i username email password in
    modify (λ w, set_next_id (Z.succ) (set_users (λ us, (us ++ [u])%list) w));;
    mret u.

(** The rows after [UPDATE user SET password = ... WHERE id = ...]. *)
Definition with_password (id : Z) (password : string) (rows : list User)
    : list User :=
  map (λ u, if User.id u =? id
            then User.mk (User.id u) (User.username u) (User.email u) password
            else u) rows.

Arguments with_password : simpl never.

(** [User.update({ id }, { password })] *)
Definition User_update_password (id : Z) (password : string) : Async unit :=
  emit (EUpdatePassword id password);;
  modify (set_users (with_password id password)).

(** *** Redis: [set key value "ex" seconds], [get], [del] *)

Definition redis_set_ex (key value : string) (seconds : Z) : Async unit :=
  emit (ERedisSet key value seconds);;
  if seconds <=? 0
  then reject (ReplyError "ERR invalid expire time in set")
  else modify (λ w, set_redis (insert key (value, now w + seconds)) w).

(** What [get] answers in a world: the value of a key that has not expired. *)
Definition redis_lookup (key : string) (w : World) : option string :=
  match redis w !! key with
  | Some (value, deadline) => if now w <? deadline then Some value else None
  | None => None
  end.

Definition redis_get (key : string) : Async (option string) :=
  emit (ERedisGet key);;
  read (redis_lookup key).

Definition redis_del (key : string) : Async unit :=
  emit (ERedisDel key);;
  modify (set_redis (delete key)).

(** *** The session of the request and the response cookie *)

(** [req.session.userId] *)
Definition session_userId (w : World) : option Z :=
  match session w with
  | Some s => userId s
  | None => None
  end.

(** [req.session.userId = id] *)
Definition session_set_userId (id : Z) : Async unit :=
  emit (ESessionBind id);;
  modify (set_session (Some {| userId := Some id |})).

(** [req.session.destroy(callback)]: the value handed to the callback. *)
Definition session_destroy : Async (option string) :=
  emit ESessionDestroy;;
  fault ← read store_fault;
  match fault with
  | Some error => mret (Some error)
  | None => modify (set_session None);; mret None
  end.

(** [res.clearCookie(name)] *)
Definition clearCookie (name : string) : Async unit :=
  emit (EClearCookie name);;
  modify (set_cookie false).

(** ** utils/sendEmails *)

(** [transporter.sendMail({ from, to, subject, html })] *)
Definition transporter_sendMail (to html : string) : Async unit :=
  emit (ESendMail to html);;
  fault ← read smtp_fault;
  match fault with
  | Some error => reject (TransportError error)
  | None => modify (set_outbox (λ o, (o ++ [(to, html)])%list))
  end.

Definition sendEmail (to html : string) : Async unit :=
  transporter_sendMail to html.

(** ** Concrete worlds

    A small installation used to run the resolvers: one registered user,
    a session, and the collaborators up or down. *)

Module Sample.

Definition cookieName : string := "qid".
Definition prefix : string := "forgot-password:".
Definition client : string := "http://localhost:3000".

Definition hash (salt : nat) (plain : string) : string := "$argon2$" +:+ plain.
Definition verify (digest plain : string) : bool :=
  String.eqb digest ("$argon2$" +:+ plain).
Definition token (n : nat) : string :=
  "token-" +:+ JS.number_to_string (Z.of_nat n).

Definition bob : User := User.mk 1 "bob" "bob@example.com" "$argon2$hunter2".
Definition root : User := User.mk 0 "root" "root@example.com" "$argon2$toor".

Definition anonymous : option Session := Some {| userId := None |}.

(** Everything up, nobody logged in, no token issued. *)
Definition world : World :=
  mkWorld [bob] 2 ∅ 1000 anonymous true None None [] 0 [].


(** Bob is logged in. *)
Definition logged_in : World :=
  mkWorld [bob] 2 ∅ 1000 (Some {| userId := Some 1 |}) true None None [] 0 [].

(** Bob is logged in and the session store is unreachable. *)
Definition store_down : World :=
  mkWorld [bob] 2 ∅ 1000 (Some {| userId := Some 1 |}) true
          (Some "ECONNRESET") None [] 0 [].

(** A reset token for bob is stored and alive. *)
Definition issued : World :=
  mkWorld [bob] 2 {[ "forgot-password:token-0" := ("1", 5000) ]} 1000
          anonymous true None None [] 1 [].

(** A reset token is stored for user 7, who is not in the table. *)
Definition orphan : World :=
  mkWorld [bob] 2 {[ "forgot-password:token-0" := ("7", 5000) ]} 1000
          anonymous true None None [] 1 [].

(** The table holds a row with id 0 and the session is bound to 0. *)
Definition bound_to_zero : World :=
  mkWorld [root; bob] 2 ∅ 1000 (Some {| userId := Some 0 |}) true
          None None [] 0 [].

End Sample.

(** ** More worlds, and names for what the table holds *)

Module Scenario.

Definition carol : User :=
  User.mk 2 "carol" "username@example.com" "$argon2$swordfish".

(** Two users; the email of the second contains the word username. *)
Definition with_carol : World :=
  mkWorld [Sample.bob; carol] 3 ∅ 1000 Sample.anonymous true None None [] 0 [].

(** Two reset tokens for bob are stored and alive. *)
Definition two_tokens : World :=
  mkWorld [Sample.bob] 2
          (<[ "forgot-password:token-1" := ("1", 6000) ]>
             {[ "forgot-password:token-0" := ("1", 5000) ]})
          1000 Sample.anonymous true None None [] 2 [].

(** Only the row with id 0 is registered. *)
Definition only_root : World :=
  mkWorld [Sample.root] 1 ∅ 1000 Sample.anonymous true None None [] 0 [].

End Scenario.

(** Some row already has the username, respectively the email. *)
Definition username_taken (username : string) (rows : list User) : bool :=
  existsb (λ u, String.eqb (User.username u) username) rows.

Definition email_taken (email : string) (rows : list User) : bool :=
  existsb (λ u, String.eqb (User.email u) email) rows.

(** The code units of a string, as a list. *)
Definition code_units (s : string) : list ascii := list_ascii_of_string s.

(** ** The validation rules of [register], in the words of the specification *)

Definition spec_contains_at (s : string) : bool :=
  existsb (Ascii.eqb "@") (list_ascii_of_string s).

(** The field of the first rule that the input breaks, in the order
    username (length at least 3), email (contains an at sign), password
    (length at least 3). *)
Definition spec_first_violation (options : RegisterInput) : option string :=
  if negb (3 <=? String.length (RegisterInput.username options))%nat
  then Some "username"
  else if negb (spec_contains_at (RegisterInput.email options))
  then Some "email"
  else if negb (3 <=? String.length (RegisterInput.password options))%nat
  then Some "password"
  else None.

(** ** resolvers/user: [UserResolver] *)

Section UserResolver.

(** The constants module and the environment are not among the sources:
    [cookieName], [forgotPasswordPrefix] and [process.env.CLIENT_URL] (as it
    prints inside a template literal) are parameters. *)
Variable cookieName : string.
Variable forgotPasswordPrefix : string.
Variable CLIENT_URL : string.

(** argon2 and uuid are libraries.  [argon2_hash n plain] is the digest
    [argon2.hash] produces for [plain] with its [n]-th salt,
    [argon2_verify digest plain] is the answer of [argon2.verify], and
    [uuid_v4 n] is the [n]-th token [v4()] draws. *)
Variable argon2_hash : nat → string → string.
Variable argon2_verify : string → string → bool.
Variable uuid_v4 : nat → string.

Definition draw : Async nat :=
  n ← read entropy;
  modify (set_entropy S);;
  mret n.

Definition hash (plain : string) : Async string :=
  emit (EHash plain);;
  n ← draw;
  mret (argon2_hash n plain).

Definition verify (digest plain : string) : Async bool :=
  emit (EVerify digest plain);;
  mret (argon2_verify digest plain).

Definition v4 : Async string :=
  n ← draw;
  mret (uuid_v4 n).

(** [!req.session.userId] *)
Definition no_userId (o : option Z) : bool :=
  match o with
  | None => true
  | Some n => JS.falsy_number n
  end.

(** The [email] field resolver. *)
Definition email (root : User) (w : World) : string :=
  if no_userId (session_userId w) || JS.falsy_number (User.id root) then ""
  else if bool_decide (session_userId w = Some (User.id root))
       then User.email root
       else "".

(** [me]: past the guard, [req.session.userId] is a non-zero number and
    is handed to [User.findOne] as it is. *)
Definition me : Async (option User) :=
  uid ← read session_userId;
  if no_userId uid then mret None
  else User_findOne uid.

(** [error?.code === "23505" && error?.detail.includes(column)] *)
Definition is_unique_violation_on (error : Exn) (column : string) : Async bool :=
  if bool_decide (exn_code error = Some "23505")
  then match exn_detail error with
       | Some detail => mret (JS.includes detail column)
       | None => reject (TypeError "Cannot read properties of undefined")
       end
  else mret false.

Definition register (options : RegisterInput) : Async UserResponse :=
  if Z.of_nat (String.length (RegisterInput.username options)) <=? 2
  then mret (response_error "username"
               "Username should be at least 3 characters long !")
  else if negb (JS.includes (RegisterInput.email options) "@")
  then mret (response_error "email" "This is not a valid email !")
  else if Z.of_nat (String.length (RegisterInput.password options)) <=? 2
  then mret (response_error "password"
               "Password should be at least 3 characters long !")
  else
    hashedPassword ← hash (RegisterInput.password options);
    try_catch
      (u ← User_insert (RegisterInput.username options)
             (RegisterInput.email options) hashedPassword;
       session_set_userId (User.id u);;
       mret (response_user u))
      (λ error : Exn,
         on_username ← is_unique_violation_on error "username";
         if (on_username : bool)
         then mret (response_error "username"
                      "An account with this username already exists !")
         else
           on_email ← is_unique_violation_on error "email";
           if (on_email : bool)
           then mret (response_error "email"
                        "An account with this email already exists !")
           else mret (response_error "username"
                        "An unknown error occured when creating your account !")).

Definition login (options : LoginInput) : Async UserResponse :=
  found ← User_findOne_where_email (LoginInput.email options);
  match found with
  | None => mret (response_error "email" "This account doesn't exist !")
  | Some u =>
      isPasswordValid ← verify (User.password u) (LoginInput.password options);
      if negb isPasswordValid
      then mret (response_error "password" "This password is not valid !")
      else
        session_set_userId (User.id u);;
        mret (response_user u)
  end.

Definition logout : Async bool :=
  error ← session_destroy;
  match error with
  | Some _ => mret false
  | None =>
      clearCookie cookieName;;
      mret true
  end.

Definition threeDaysInMilliseconds : Z := 1000 * 60 * 60 * 24 * 3.

Definition newline : string := String (ascii_of_nat 10) "".

Definition emailBody (token : string) : string :=
  newline +:+ "      <a href='" +:+ CLIENT_URL +:+ "/change-password/" +:+ token
  +:+ "'>" +:+ newline +:+ "        Reset your password" +:+ newline
  +:+ "      </a>" +:+ newline +:+ "    ".

Definition forgotPassword (email : string) : Async bool :=
  found ← User_findOne_where_email email;
  match found with
  | None => mret true
  | Some u =>
      token ← v4;
      redis_set_ex (forgotPasswordPrefix +:+ token)
        (JS.number_to_string (User.id u)) threeDaysInMilliseconds;;
      sendEmail email (emailBody token);;
      mret true
  end.

Definition changePassword (token newPassword : string) : Async UserResponse :=
  if Z.of_nat (String.length newPassword) <=? 2
  then mret (response_error "newPassword"
               "Password should be at least 3 characters long !")
  else
    let key := forgotPasswordPrefix +:+ token in
    userId ← redis_get key;
    match userId with
    | None => mret (response_error "newPassword" "The token expired !")
    | Some userId =>
        if JS.falsy_string userId
        then mret (response_error "newPassword" "The token expired !")
        else
          found ← User_findOne (JS.parseInt userId);
          match found with
          | None =>
              mret (response_error "newPassword" "This user doesn't exist !")
          | Some u =>
              hashedPassword ← hash newPassword;
              User_update_password (User.id u) hashedPassword;;
              redis_del key;;
              session_set_userId (User.id u);;
              mret (response_user u)
          end
    end.

(** ** Properties of the built-ins *)

Lemma digit_val_digit_char (d : Z) :
  0 <= d < 10 → JS.digit_val 10 (JS.digit_char d) = Some d.
Proof.
  intros Hd.
  assert (d = 0 ∨ d = 1 ∨ d = 2 ∨ d = 3 ∨ d = 4 ∨ d = 5 ∨ d = 6 ∨ d = 7
          ∨ d = 8 ∨ d = 9) as Hcases by lia.
  repeat (destruct Hcases as [-> | Hcases]; [reflexivity |]).
  subst d. reflexivity.
Qed.

Lemma is_decimal_digit_char (d : Z) :
  0 <= d < 10 → JS.is_decimal_digit (JS.digit_char d) = true.
Proof.
  intros Hd.
  assert (d = 0 ∨ d = 1 ∨ d = 2 ∨ d = 3 ∨ d = 4 ∨ d = 5 ∨ d = 6 ∨ d = 7
          ∨ d = 8 ∨ d = 9) as Hcases by lia.
  repeat (destruct Hcases as [-> | Hcases]; [reflexivity |]).
  subst d. reflexivity.
Qed.

Lemma digits_aux_all_decimal (fuel : nat) : ∀ n acc,
  JS.all_decimal acc = true → JS.all_decimal (JS.digits_aux fuel n acc) = true.
Proof.
  induction fuel as [| fuel IH]; intros n acc Hacc; [exact Hacc |].
  assert (JS.all_decimal (String (JS.digit_char (n mod 10)) acc) = true) as H.
  { cbn [JS.all_decimal]. rewrite is_decimal_digit_char, Hacc; [done |].
    apply Z.mod_pos_bound. lia. }
  cbn [JS.digits_aux]. destruct (n / 10 =? 0); [exact H | by apply IH].
Qed.

Lemma digits_aux_nonempty (fuel : nat) : ∀ n acc,
  fuel ≠ 0%nat → JS.digits_aux fuel n acc ≠ "".
Proof.
  induction fuel as [| fuel IH]; intros n acc Hfuel; [done |].
  cbn [JS.digits_aux]. destruct (n / 10 =? 0) eqn:Hq; [done |].
  destruct fuel as [| fuel']; [done |]. by apply IH.
Qed.

(** Reading back the digits that were printed gives the number. *)
Lemma parse_digits_digits_aux (fuel : nat) : ∀ n acc,
  fuel ≠ 0%nat → 0 <= n < 2 ^ Z.of_nat fuel →
  JS.parse_digits 10 (JS.digits_aux fuel n acc) None
  = JS.parse_digits 10 acc (Some n).
Proof.
  induction fuel as [| fuel IH]; intros n acc Hfuel Hn; [done |].
  assert (0 <= n mod 10 < 10) as Hm by (apply Z.mod_pos_bound; lia).
  pose proof (Z.div_mod n 10 ltac:(lia)) as Hdm.
  cbn [JS.digits_aux]. destruct (n / 10 =? 0) eqn:Hq.
  - apply Z.eqb_eq in Hq. cbn [JS.parse_digits].
    rewrite digit_val_digit_char by done. cbn [JS.so_far].
    replace (10 * 0 + n mod 10) with n by lia. reflexivity.
  - apply Z.eqb_neq in Hq.
    assert (0 < n / 10) as Hpos.
    { assert (0 <= n / 10) by (apply Z.div_pos; lia). lia. }
    assert (n / 10 < 2 ^ Z.of_nat fuel) as Hlt.
    { rewrite Nat2Z.inj_succ, Z.pow_succ_r in Hn by lia.
      apply Z.div_lt_upper_bound; lia. }
    assert (fuel ≠ 0%nat) as Hfuel'.
    { intros ->. change (2 ^ Z.of_nat 0) with 1 in Hlt. lia. }
    rewrite IH by (done || lia). cbn [JS.parse_digits].
    rewrite digit_val_digit_char by done. cbn [JS.so_far].
    replace (10 * (n / 10) + n mod 10) with n by lia. reflexivity.
Qed.

Lemma parse_digits_digits (n : Z) :
  0 <= n → JS.parse_digits 10 (JS.digits n) None = Some n.
Proof.
  intros Hn. unfold JS.digits.
  rewrite parse_digits_digits_aux; [done | done |].
  split; [done |].
  destruct (decide (n = 0)) as [-> | Hne]; [done |].
  rewrite Nat2Z.inj_succ, Z2Nat.id by apply Z.log2_nonneg.
  apply Z.log2_spec. lia.
Qed.

(** A non-empty run of decimal digits has no white space, sign or
    hexadecimal prefix for [parseInt] to strip. *)
Lemma decimal_no_prefix (s : string) :
  JS.all_decimal s = true → s ≠ "" →
  JS.trim_start s = s ∧ JS.strip_sign s = (1, s) ∧ JS.strip_hex_prefix s = None.
Proof.
  destruct s as [| c s]; [done |]. intros Hs _.
  cbn [JS.all_decimal] in Hs. apply andb_prop in Hs as [Hc Hs].
  destruct c as [[] [] [] [] [] [] [] []]; try discriminate Hc;
    (split; [reflexivity | split; [reflexivity |]]); try reflexivity.
  destruct s as [| c' s']; [reflexivity |].
  cbn [JS.all_decimal] in Hs. apply andb_prop in Hs as [Hc' _].
  destruct c' as [[] [] [] [] [] [] [] []]; try discriminate Hc'; reflexivity.
Qed.

Lemma parseInt_digits (n : Z) :
  0 <= n → JS.parseInt (JS.digits n) = Some n.
Proof.
  intros Hn.
  destruct (decimal_no_prefix (JS.digits n)) as (Htrim & Hsign & Hhex).
  { by apply digits_aux_all_decimal. }
  { by apply digits_aux_nonempty. }
  unfold JS.parseInt. rewrite Htrim, Hsign, Hhex, parse_digits_digits by done.
  f_equal. lia.
Qed.

(** [parseInt(String(n)) === n] for every integer [n]. *)
Lemma parseInt_number_to_string (n : Z) :
  JS.parseInt (JS.number_to_string n) = Some n.
Proof.
  unfold JS.number_to_string. destruct (n <? 0) eqn:Hneg.
  - apply Z.ltb_lt in Hneg.
    assert (0 <= - n) as Hpos by lia.
    destruct (decimal_no_prefix (JS.digits (- n))) as (_ & _ & Hhex).
    { by apply digits_aux_all_decimal. }
    { by apply digits_aux_nonempty. }
    unfold JS.parseInt. cbn [JS.trim_start].
    change (JS.is_white_space "-") with false. cbn [JS.strip_sign].
    change (JS.strip_sign (String "-" (JS.digits (- n))))
      with (-1, JS.digits (- n)).
    rewrite Hhex, parse_digits_digits by done. f_equal. lia.
  - apply Z.ltb_ge in Hneg. by apply parseInt_digits.
Qed.

Lemma number_to_string_truthy (n : Z) :
  JS.falsy_string (JS.number_to_string n) = false.
Proof.
  unfold JS.number_to_string. destruct (n <? 0); [done |].
  pose proof (digits_aux_nonempty (S (Z.to_nat (Z.log2 n))) n "") as H.
  unfold JS.digits. destruct (JS.digits_aux _ n ""); [by destruct H | done].
Qed.

(** [s.includes("@")] holds exactly when some code unit of [s] is ["@"]. *)
Lemma includes_at (s : string) :
  JS.includes s "@" = existsb (Ascii.eqb "@") (list_ascii_of_string s).
Proof.
  induction s as [| c s IH]; [done |].
  cbn [JS.includes String.prefix list_ascii_of_string existsb].
  destruct (ascii_dec "@" c) as [<- | Hne].
  - cbn. by destruct s.
  - rewrite (proj2 (Ascii.eqb_neq _ _) Hne). cbn [orb]. exact IH.
Qed.

(** ** Substrings *)

Lemma append_assoc (a b c : string) : (a +:+ b) +:+ c = a +:+ (b +:+ c).
Proof.
  induction a as [| x a IH]; [done |].
  change (String x ((a +:+ b) +:+ c) = String x (a +:+ (b +:+ c))).
  by f_equal.
Qed.

Lemma append_cons (x : ascii) (a b : string) :
  String x a +:+ b = String x (a +:+ b).
Proof. reflexivity. Qed.

Lemma append_nil (b : string) : "" +:+ b = b.
Proof. reflexivity. Qed.

Lemma prefix_nil (s : string) : String.prefix "" s = true.
Proof. by destruct s. Qed.

Lemma prefix_cons (x : ascii) (n : string) (y : ascii) (s : string) :
  String.prefix (String x n) (String y s)
  = if ascii_dec x y then String.prefix n s else false.
Proof. reflexivity. Qed.

Lemma prefix_append (n s q : string) :
  String.prefix n s = true → String.prefix n (s +:+ q) = true.
Proof.
  revert s. induction n as [| x n IH]; intros s;
    [intros _; apply prefix_nil |].
  destruct s as [| y s]; [done |].
  change (String y s +:+ q) with (String y (s +:+ q)). rewrite !prefix_cons.
  destruct (ascii_dec x y); [apply IH | done].
Qed.

Lemma prefix_self_append (n q : string) : String.prefix n (n +:+ q) = true.
Proof.
  induction n as [| x n IH]; [apply prefix_nil |].
  change (String x n +:+ q) with (String x (n +:+ q)). rewrite prefix_cons.
  destruct (ascii_dec x x); [exact IH | done].
Qed.

(** A prefix that reaches past the end of [s] into [q] holds the first
    code unit of [q]. *)
Lemma prefix_append_inv (n s q : string) :
  String.prefix n (s +:+ q) = true →
  String.prefix n s = true
  ∨ ∃ c q', q = String c q' ∧ In c (code_units n).
Proof.
  revert s. induction n as [| x n IH]; intros s H;
    [left; apply prefix_nil |].
  destruct s as [| y s].
  - right. change ("" +:+ q) with q in H. destruct q as [| c q']; [done |].
    rewrite prefix_cons in H. destruct (ascii_dec x c) as [-> | ]; [| done].
    exists c, q'. split; [done |]. by left.
  - change (String y s +:+ q) with (String y (s +:+ q)) in H.
    rewrite prefix_cons in *. destruct (ascii_dec x y) as [-> | ]; [| done].
    destruct (IH s H) as [Hs | (c & q' & -> & Hc)]; [by left |].
    right. exists c, q'. split; [done |]. by right.
Qed.

Lemma includes_append_r (s q n : string) :
  JS.includes s n = true → JS.includes (s +:+ q) n = true.
Proof.
  induction s as [| x s IH]; cbn [JS.includes].
  - destruct (String.prefix n "") eqn:Hp; [| done]. intros _.
    destruct n; [| done]. by destruct q.
  - destruct (String.prefix n (String x s)) eqn:Hp.
    + intros _. change (String x s +:+ q) with (String x (s +:+ q)).
      cbn [JS.includes].
      change (String x (s +:+ q)) with (String x s +:+ q).
      by rewrite (prefix_append _ _ q Hp).
    + intros H. change (String x s +:+ q) with (String x (s +:+ q)).
      cbn [JS.includes]. rewrite (IH H). by case_match.
Qed.

Lemma includes_append_l (p s n : string) :
  JS.includes s n = true → JS.includes (p +:+ s) n = true.
Proof.
  intros H. induction p as [| x p IH]; [exact H |].
  change (String x p +:+ s) with (String x (p +:+ s)). cbn [JS.includes].
  rewrite IH. by case_match.
Qed.

Lemma includes_self_append (n q : string) : JS.includes (n +:+ q) n = true.
Proof.
  destruct (n +:+ q) eqn:E; cbn [JS.includes]; rewrite <- E;
    by rewrite prefix_self_append.
Qed.

Lemma includes_cons_skip (x : ascii) (s n : string) :
  String.prefix n (String x s) = false →
  JS.includes (String x s) n = JS.includes s n.
Proof. intros H. cbn [JS.includes]. by rewrite H. Qed.

(** [s] occurs in whatever is written around it. *)
Lemma includes_middle (p s q : string) :
  JS.includes (p +:+ s +:+ q) s = true.
Proof. apply includes_append_l, includes_self_append. Qed.

(** Nothing new is found by appending [q] when the first code unit of [q]
    does not occur in what is searched for. *)
Lemma includes_append_none (s q n : string) (c : ascii) (q' : string) :
  q = String c q' → ¬ In c (code_units n) →
  JS.includes s n = false → JS.includes q n = false →
  JS.includes (s +:+ q) n = false.
Proof.
  intros Hq Hc. induction s as [| x s IH]; intros Hs Hqn; [exact Hqn |].
  cbn [JS.includes] in Hs.
  destruct (String.prefix n (String x s)) eqn:Hp; [done |].
  change (String x s +:+ q) with (String x (s +:+ q)). cbn [JS.includes].
  change (String x (s +:+ q)) with (String x s +:+ q).
  destruct (String.prefix n (String x s +:+ q)) eqn:Hp'.
  - apply prefix_append_inv in Hp' as [Hp' | (c' & q'' & Hq' & Hin)].
    + congruence.
    + rewrite Hq in Hq'. injection Hq' as <- _. done.
  - by apply IH.
Qed.

(** ** Properties of the resolvers *)

(** Runs the monadic plumbing of a goal. *)
Ltac async :=
  unfold mbind, Async_bind, mret, Async_ret, emit, modify, read, reject;
  cbn.

Lemma length_le_2 (s : string) :
  (Z.of_nat (String.length s) <=? 2) = negb (3 <=? String.length s)%nat.
Proof.
  destruct (Nat.leb_spec 3 (String.length s));
    [apply Z.leb_gt | apply Z.leb_le]; lia.
Qed.

(** C4. [register] checks the username, then the email, then the password,
    and stops at the first rule that fails: it answers with the single field
    error of that rule and leaves the world as it was (nothing is hashed and
    nothing is inserted).  When no rule fails, it goes on to hash the
    password. *)
Theorem register_validation_order (options : RegisterInput) (w : World) :
  match spec_first_violation options with
  | Some f =>
      ∃ m, register options w
           = (Resolved {| user := None;
                          errors := Some [ {| field := f; message := m |} ] |},
              w)
  | None =>
      ∃ r w' rest, register options w = (r, w')
                   ∧ trace w' = (trace w
                        ++ EHash (RegisterInput.password options) :: rest)%list
  end.
Proof.
  unfold spec_first_violation, register.
  rewrite !length_le_2, includes_at. fold (spec_contains_at (RegisterInput.email options)).
  destruct (negb (3 <=? String.length (RegisterInput.username options))%nat);
    [by eexists |].
  destruct (negb (spec_contains_at (RegisterInput.email options)));
    [by eexists |].
  destruct (negb (3 <=? String.length (RegisterInput.password options))%nat);
    [by eexists |].
  unfold hash, draw, try_catch, User_insert, session_set_userId, is_unique_violation_on.
  async.
  repeat match goal with
         | |- context [if ?b then _ else _] => destruct b; cbn
         end;
    (eexists _, _, _; split; [reflexivity |]; cbn;
     rewrite <- ?app_assoc; reflexivity).
Qed.

(** C5. [login] tells its two failures apart.  When no user has the email,
    the answer is a field error on [email] (so not on [password]); when the
    user exists and the password does not verify, it is a field error on
    [password]; in both cases the session is left alone.  When the password
    verifies, the user's id is bound into the session and the user is
    returned. *)
Theorem login_discriminates (options : LoginInput) (w : World) :
  (find_by_email (LoginInput.email options) (users w) = None →
     ∃ w', login options w
           = (Resolved (response_error "email" "This account doesn't exist !"),
              w')
           ∧ session w' = session w)
  ∧ (∀ u, find_by_email (LoginInput.email options) (users w) = Some u →
       argon2_verify (User.password u) (LoginInput.password options) = false →
       ∃ w', login options w
             = (Resolved
                  (response_error "password" "This password is not valid !"),
                w')
             ∧ session w' = session w)
  ∧ (∀ u, find_by_email (LoginInput.email options) (users w) = Some u →
       argon2_verify (User.password u) (LoginInput.password options) = true →
       ∃ w', login options w = (Resolved (response_user u), w')
             ∧ session_userId w' = Some (User.id u)
             ∧ users w' = users w).
Proof.
  unfold login, User_findOne_where_email, verify, session_set_userId.
  async. repeat split.
  - intros ->. by eexists.
  - intros u -> Hverify. cbn. rewrite Hverify. by eexists.
  - intros u -> Hverify. cbn. rewrite Hverify. by eexists.
Qed.

(** C8. [logout] never rejects.  When the session store fails to destroy the
    session it resolves to [false] and neither the session nor the cookie is
    touched; otherwise the session is gone, the cookie is cleared and it
    resolves to [true]. *)
Theorem logout_outcomes (w : World) :
  (∀ error, store_fault w = Some error →
     ∃ w', logout w = (Resolved false, w')
           ∧ session w' = session w ∧ cookie w' = cookie w
           ∧ trace w' = (trace w ++ [ESessionDestroy])%list)
  ∧ (store_fault w = None →
     ∃ w', logout w = (Resolved true, w')
           ∧ session w' = None ∧ cookie w' = false
           ∧ trace w' = (trace w ++ [ESessionDestroy; EClearCookie cookieName])%list)
  ∧ (∃ b w', logout w = (Resolved b, w')).
Proof.
  unfold logout, session_destroy, clearCookie. async.
  destruct (store_fault w) as [error |]; cbn; repeat split.
  - intros ? _. by eexists.
  - done.
  - by eexists _, _.
  - done.
  - intros _. eexists. repeat split. cbn. by rewrite <- app_assoc.
  - by eexists _, _.
Qed.

(** C9, as amended.  The [email] field resolver returns the stored email
    when the session's userId is non-zero and equals the id of the user
    looked at; in every other case (another userId, none, or the id 0 on
    either side) it returns the empty string.  So two users with the same id
    but different stored emails look the same to every viewer who is not
    that user. *)
Theorem email_visible_to_self_only (root : User) (w : World) :
  (session_userId w = Some (User.id root) → User.id root ≠ 0 →
     email root w = User.email root)
  ∧ (session_userId w ≠ Some (User.id root) → email root w = "")
  ∧ (User.id root = 0 → email root w = "")
  ∧ (∀ other, User.id other = User.id root →
       session_userId w ≠ Some (User.id root) →
       email other w = email root w).
Proof.
  assert (∀ r : User, session_userId w ≠ Some (User.id r) → email r w = "")
    as Hother.
  { intros r Hne. unfold email.
    destruct (no_userId _ || JS.falsy_number _); [done |].
    by rewrite bool_decide_eq_false_2. }
  repeat split.
  - intros Heq Hnz. unfold email. rewrite Heq. cbn. unfold JS.falsy_number.
    rewrite (proj2 (Z.eqb_neq _ _) Hnz). cbn.
    by rewrite bool_decide_eq_true_2.
  - apply Hother.
  - intros Hz. unfold email, JS.falsy_number. rewrite Hz. cbn.
    by rewrite orb_true_r.
  - intros other Hid Hne. rewrite (Hother root Hne).
    apply Hother. by rewrite Hid.
Qed.

(** C10. [me] answers [null] when the session has no userId or has the
    userId 0, without asking the store; for any other userId it answers with
    what the store finds for that id.  A session bound to 0 and an anonymous
    session get the same answer. *)
Theorem me_falsy_userId (w : World) :
  (session_userId w = None ∨ session_userId w = Some 0 →
     me w = (Resolved None, w))
  ∧ (∀ i, session_userId w = Some i → i ≠ 0 →
       me w = User_findOne (Some i) w)
  ∧ (∀ anonymous, session_userId w = Some 0 →
       session_userId anonymous = None →
       (me w).1 = (me anonymous).1).
Proof.
  unfold me. async. repeat split.
  - by intros [-> | ->].
  - intros i -> Hnz. cbn. unfold JS.falsy_number.
    by rewrite (proj2 (Z.eqb_neq _ _) Hnz).
  - by intros anonymous -> ->.
Qed.

(** *** Reset tokens *)

(** The row that [User.update] leaves for a user whose password changed. *)
Lemma find_after_update (i : Z) (hashed : string) (rows : list User) (u : User) :
  find_by_id i rows = Some u →
  find_by_id i (with_password i hashed rows)
  = Some (User.mk (User.id u) (User.username u) (User.email u) hashed).
Proof.
  unfold find_by_id, with_password.
  induction rows as [| x rows IH]; [done |]. cbn [List.find map].
  destruct (User.id x =? i) eqn:Hx.
  - intros [= ->]. cbn [User.id]. by rewrite Hx.
  - rewrite Hx. exact IH.
Qed.

Lemma find_by_id_id (i : Z) (rows : list User) (u : User) :
  find_by_id i rows = Some u → User.id u = i.
Proof.
  unfold find_by_id. intros H. apply List.find_some in H as [_ H]. by apply Z.eqb_eq in H.
Qed.

(** What [forgotPassword] does for a registered email, up to the mail. *)
Lemma forgotPassword_found (email : string) (w : World) (u : User) :
  find_by_email email (users w) = Some u →
  let token := uuid_v4 (entropy w) in
  let key := forgotPasswordPrefix +:+ token in
  let stored :=
    set_redis
      (insert key (JS.number_to_string (User.id u), now w + 259200000))
      (set_trace (λ t, (t ++ [ERedisSet key (JS.number_to_string (User.id u))
                                        259200000])%list)
         (set_entropy S
            (set_trace (λ t, (t ++ [EFindOneByEmail email])%list) w))) in
  forgotPassword email w
  = (sendEmail email (emailBody token) ;; mret true) stored.
Proof.
  intros Hfound. unfold forgotPassword, User_findOne_where_email, v4, draw,
    redis_set_ex.
  async. rewrite Hfound. reflexivity.
Qed.

(** The three ways [changePassword] answers with an error, and its one way
    to succeed, with the world each leaves. *)
Lemma changePassword_too_short (token newPassword : string) (w : World) :
  (String.length newPassword <= 2)%nat →
  changePassword token newPassword w
  = (Resolved (response_error "newPassword"
                 "Password should be at least 3 characters long !"), w).
Proof.
  intros Hlen. unfold changePassword.
  by rewrite (proj2 (Z.leb_le _ _)) by lia.
Qed.

Lemma changePassword_not_found (token newPassword : string) (w : World) :
  (3 <= String.length newPassword)%nat →
  redis_lookup (forgotPasswordPrefix +:+ token) w = None →
  changePassword token newPassword w
  = (Resolved (response_error "newPassword" "The token expired !"),
     set_trace
       (λ t, (t ++ [ERedisGet (forgotPasswordPrefix +:+ token)])%list) w).
Proof.
  intros Hlen Hget. unfold changePassword, redis_get.
  rewrite (proj2 (Z.leb_gt _ _)) by lia.
  async. change (redis_lookup ?k (set_trace ?f w)) with (redis_lookup k w).
  by rewrite Hget.
Qed.

Lemma changePassword_no_user (token newPassword : string) (w : World)
    (value : string) (i : Z) :
  (3 <= String.length newPassword)%nat →
  redis_lookup (forgotPasswordPrefix +:+ token) w = Some value →
  JS.falsy_string value = false →
  JS.parseInt value = Some i →
  find_by_id i (users w) = None →
  changePassword token newPassword w
  = (Resolved (response_error "newPassword" "This user doesn't exist !"),
     set_trace
       (λ t, (t ++ [ERedisGet (forgotPasswordPrefix +:+ token);
                    EFindOneById (Some i)])%list) w).
Proof.
  intros Hlen Hget Htruthy Hparse Hfind.
  unfold changePassword, redis_get, User_findOne.
  rewrite (proj2 (Z.leb_gt _ _)) by lia.
  async. change (redis_lookup ?k (set_trace ?f w)) with (redis_lookup k w).
  rewrite Hget, Htruthy, Hparse. cbn. rewrite Hfind.
  unfold set_trace. cbn. by rewrite <- app_assoc.
Qed.

Lemma changePassword_success (token newPassword : string) (w : World)
    (value : string) (i : Z) (u : User) :
  (3 <= String.length newPassword)%nat →
  redis_lookup (forgotPasswordPrefix +:+ token) w = Some value →
  JS.falsy_string value = false →
  JS.parseInt value = Some i →
  find_by_id i (users w) = Some u →
  let key := forgotPasswordPrefix +:+ token in
  let hashed := argon2_hash (entropy w) newPassword in
  ∃ w', changePassword token newPassword w = (Resolved (response_user u), w')
    ∧ users w' = with_password (User.id u) hashed (users w)
    ∧ redis w' = delete key (redis w)
    ∧ session w' = Some {| userId := Some (User.id u) |}
    ∧ trace w'
      = (trace w ++ [ERedisGet key; EFindOneById (Some i); EHash newPassword;
                     EUpdatePassword (User.id u) hashed; ERedisDel key;
                     ESessionBind (User.id u)])%list
    ∧ now w' = now w.
Proof.
  intros Hlen Hget Htruthy Hparse Hfind.
  unfold changePassword, redis_get, User_findOne, hash, draw,
    User_update_password, redis_del, session_set_userId.
  rewrite (proj2 (Z.leb_gt _ _)) by lia.
  async. change (redis_lookup ?k (set_trace ?f w)) with (redis_lookup k w).
  rewrite Hget, Htruthy, Hparse. cbn. rewrite Hfind. cbn.
  eexists. repeat split. cbn. by rewrite <- !app_assoc.
Qed.

(** The expiry [forgotPassword] gives a token: [threeDaysInMilliseconds]
    is handed to Redis under ["ex"], which counts seconds. *)
Lemma forgotPassword_expiry_seconds (email : string) (w : World) (u : User) :
  find_by_email email (users w) = Some u →
  redis (forgotPassword email w).2 !! (forgotPasswordPrefix +:+ uuid_v4 (entropy w))
  = Some (JS.number_to_string (User.id u), now w + 259200000).
Proof.
  intros Hfound. rewrite (forgotPassword_found _ _ _ Hfound).
  unfold sendEmail, transporter_sendMail. async.
  destruct (smtp_fault w); cbn; apply lookup_insert_eq.
Qed.

(** A token that [forgotPassword] issued is accepted by [changePassword]
    as long as it has not expired, and then only once. *)
Lemma issued_token_redeems_once (email newPassword again : string)
    (w : World) (u : User) (wait later : Z) :
  find_by_email email (users w) = Some u →
  find_by_id (User.id u) (users w) = Some u →
  smtp_fault w = None →
  (3 <= String.length newPassword)%nat →
  (3 <= String.length again)%nat →
  wait < 259200000 →
  ∃ w0 w1 w2,
    forgotPassword email w = (Resolved true, w0)
    ∧ changePassword (uuid_v4 (entropy w)) newPassword (advance wait w0)
      = (Resolved (response_user u), w1)
    ∧ changePassword (uuid_v4 (entropy w)) again (advance later w1)
      = (Resolved (response_error "newPassword" "The token expired !"), w2).
Proof.
  intros Hemail Hid Hup Hlen Hagain Hwait.
  rewrite (forgotPassword_found _ _ _ Hemail).
  unfold sendEmail, transporter_sendMail. async. rewrite Hup. cbn.
  eexists. match goal with |- ∃ w1 w2, (_, ?x) = _ ∧ _ => set (w0 := x) end.
  assert (redis_lookup (forgotPasswordPrefix +:+ uuid_v4 (entropy w))
            (advance wait w0)
          = Some (JS.number_to_string (User.id u))) as Hstored.
  { unfold redis_lookup. cbn. rewrite lookup_insert_eq.
    by rewrite (proj2 (Z.ltb_lt _ _)) by lia. }
  destruct (changePassword_success (uuid_v4 (entropy w)) newPassword
              (advance wait w0) _ _ u Hlen Hstored
              (number_to_string_truthy _) (parseInt_number_to_string _) Hid)
    as (w1 & Hfirst & _ & Hredis & _).
  eexists w1, _. split; [reflexivity |]. split; [exact Hfirst |].
  rewrite changePassword_not_found; [done | done |].
  unfold redis_lookup, advance. cbn. rewrite Hredis.
  by rewrite lookup_delete_eq.
Qed.


(** C3. A reset token redeems exactly once.  With a token stored for an
    existing user and a new password of at least 3 characters, the first
    [changePassword] returns that user and removes the token; a second
    [changePassword] with the same token, at any later time and with any
    acceptable password, answers "The token expired !" and changes no
    password. *)
Theorem reset_token_redeems_once (token newPassword again : string)
    (w : World) (u : User) (later : Z) :
  (3 <= String.length newPassword)%nat →
  (3 <= String.length again)%nat →
  redis_lookup (forgotPasswordPrefix +:+ token) w
  = Some (JS.number_to_string (User.id u)) →
  find_by_id (User.id u) (users w) = Some u →
  ∃ w1 w2,
    changePassword token newPassword w = (Resolved (response_user u), w1)
    ∧ redis w1 !! (forgotPasswordPrefix +:+ token) = None
    ∧ changePassword token again (advance later w1)
      = (Resolved (response_error "newPassword" "The token expired !"), w2)
    ∧ users w2 = users w1.
Proof.
  intros Hlen Hagain Hstored Hfind.
  destruct (changePassword_success token newPassword w _ _ u Hlen Hstored
              (number_to_string_truthy _) (parseInt_number_to_string _) Hfind)
    as (w1 & Hfirst & _ & Hredis & _).
  assert (redis w1 !! (forgotPasswordPrefix +:+ token) = None) as Hgone.
  { rewrite Hredis. apply lookup_delete_eq. }
  eexists w1, _. split; [exact Hfirst |]. split; [exact Hgone |].
  rewrite changePassword_not_found; [done | done |].
  unfold redis_lookup, advance. cbn. by rewrite Hgone.
Qed.

(** C6, as amended.  After validation and the two lookups, [changePassword]
    hashes the new password, writes it to the row of the redeemed user,
    deletes the token, binds the user's id into the session and returns the
    user as it was read before the update, in this order: the returned
    object is the row found by the lookup, with the old digest, while the
    stored row now has the new digest.  A new password shorter than 3, a
    token that is not found and a user that no longer exists each give a
    field error on [newPassword], and in none of them a password is hashed
    or written. *)
Theorem changePassword_sequence (token newPassword : string) (w : World) :
  let key := forgotPasswordPrefix +:+ token in
  (∀ value i u,
     (3 <= String.length newPassword)%nat →
     redis_lookup key w = Some value → JS.falsy_string value = false →
     JS.parseInt value = Some i → find_by_id i (users w) = Some u →
     let hashed := argon2_hash (entropy w) newPassword in
     ∃ w', changePassword token newPassword w = (Resolved (response_user u), w')
       ∧ trace w'
         = (trace w ++ [ERedisGet key; EFindOneById (Some i);
                        EHash newPassword;
                        EUpdatePassword (User.id u) hashed;
                        ERedisDel key; ESessionBind (User.id u)])%list
       ∧ find_by_id (User.id u) (users w')
         = Some (User.mk (User.id u) (User.username u) (User.email u) hashed)
       ∧ redis w' !! key = None
       ∧ session_userId w' = Some (User.id u))
  ∧ ((String.length newPassword <= 2)%nat →
     changePassword token newPassword w
     = (Resolved (response_error "newPassword"
                    "Password should be at least 3 characters long !"), w))
  ∧ ((3 <= String.length newPassword)%nat → redis_lookup key w = None →
     ∃ w', changePassword token newPassword w
           = (Resolved (response_error "newPassword" "The token expired !"),
              w')
       ∧ users w' = users w
       ∧ trace w' = (trace w ++ [ERedisGet key])%list)
  ∧ (∀ value i,
     (3 <= String.length newPassword)%nat →
     redis_lookup key w = Some value → JS.falsy_string value = false →
     JS.parseInt value = Some i → find_by_id i (users w) = None →
     ∃ w', changePassword token newPassword w
           = (Resolved
                (response_error "newPassword" "This user doesn't exist !"),
              w')
       ∧ users w' = users w
       ∧ trace w' = (trace w ++ [ERedisGet key; EFindOneById (Some i)])%list).
Proof.
  cbn zeta. repeat split.
  - intros value i u Hlen Hget Htruthy Hparse Hfind.
    destruct (changePassword_success token newPassword w value i u
                Hlen Hget Htruthy Hparse Hfind)
      as (w' & Hrun & Husers & Hredis & Hsession & Htrace & _).
    exists w'. split; [exact Hrun |]. split; [exact Htrace |].
    split; [| split].
    + rewrite Husers. apply find_after_update.
      by rewrite (find_by_id_id _ _ _ Hfind).
    + rewrite Hredis. apply lookup_delete_eq.
    + unfold session_userId. by rewrite Hsession.
  - apply changePassword_too_short.
  - intros Hlen Hget. rewrite changePassword_not_found by done. by eexists.
  - intros value i Hlen Hget Htruthy Hparse Hfind.
    rewrite (changePassword_no_user token newPassword w value i) by done.
    by eexists.
Qed.

(** C7. When the token is found but its user is not, [changePassword]
    answers with the field error and the token is still in the store, with
    the value it had. *)
Theorem changePassword_keeps_token_without_user (token newPassword : string)
    (w : World) (value : string) (i : Z) :
  (3 <= String.length newPassword)%nat →
  redis_lookup (forgotPasswordPrefix +:+ token) w = Some value →
  JS.falsy_string value = false →
  JS.parseInt value = Some i →
  find_by_id i (users w) = None →
  ∃ w', changePassword token newPassword w
        = (Resolved (response_error "newPassword" "This user doesn't exist !"),
           w')
    ∧ redis w' = redis w
    ∧ redis_lookup (forgotPasswordPrefix +:+ token) w' = Some value.
Proof.
  intros Hlen Hget Htruthy Hparse Hfind.
  rewrite (changePassword_no_user token newPassword w value i) by done.
  eexists. split; [reflexivity |]. split; [reflexivity |]. exact Hget.
Qed.

(** ** Further properties *)

(** *** Rows *)

Lemma find_by_email_fresh (e : string) (rows : list User) (u : User) :
  email_taken e rows = false → User.email u = e →
  find_by_email e (rows ++ [u])%list = Some u.
Proof.
  unfold email_taken, find_by_email. intros Hfree Hu.
  induction rows as [| x rows IH]; cbn [app List.find existsb] in *.
  - by rewrite Hu, String.eqb_refl.
  - apply orb_false_elim in Hfree as [-> Hfree]. by apply IH.
Qed.

Lemma find_by_id_fresh (i : Z) (rows : list User) (u : User) :
  find_by_id i rows = None → User.id u = i →
  find_by_id i (rows ++ [u])%list = Some u.
Proof.
  unfold find_by_id. intros Hfree Hu.
  induction rows as [| x rows IH]; cbn [app List.find] in *.
  - by rewrite Hu, Z.eqb_refl.
  - destruct (User.id x =? i); [done |]. by apply IH.
Qed.

Lemma find_by_email_with_password (e hashed : string) (rows : list User)
    (u : User) :
  find_by_email e rows = Some u →
  find_by_email e (with_password (User.id u) hashed rows)
  = Some (User.mk (User.id u) (User.username u) (User.email u) hashed).
Proof.
  unfold find_by_email, with_password.
  induction rows as [| x rows IH]; [done |]. cbn [List.find map].
  destruct (User.email x =? e)%string eqn:Hx.
  - intros [= ->]. rewrite Z.eqb_refl. cbn [User.email]. by rewrite Hx.
  - intros Hfind. destruct (User.id x =? User.id u); cbn [User.email];
      rewrite Hx; by apply IH.
Qed.

(** What the handler of [register] reads in PostgreSQL's unique violation. *)
Lemma unique_violation_names_column (column value : string) (w : World) :
  is_unique_violation_on (unique_violation column value) column w
  = (Resolved true, w).
Proof.
  unfold is_unique_violation_on, unique_violation. cbn [exn_code exn_detail].
  rewrite bool_decide_eq_true_2 by done.
  unfold mret, Async_ret. by rewrite includes_middle.
Qed.

Lemma email_violation_not_on_username (value : string) (w : World) :
  JS.includes value "username" = false →
  is_unique_violation_on (unique_violation "email" value) "username" w
  = (Resolved false, w).
Proof.
  intros Hvalue.
  unfold is_unique_violation_on, unique_violation. cbn [exn_code exn_detail].
  rewrite bool_decide_eq_true_2 by done. unfold mret, Async_ret.
  assert (JS.includes (value +:+ ") already exists.") "username" = false)
    as Htail.
  { apply (includes_append_none _ _ _ ")" " already exists.");
      [done | | done | done].
    cbn. intros H. repeat destruct H as [H | H]; try discriminate H. done. }
  rewrite !append_cons, !append_nil.
  repeat (rewrite includes_cons_skip by reflexivity).
  by rewrite Htail.
Qed.

Lemma email_violation_on_username (value : string) (w : World) :
  JS.includes value "username" = true →
  is_unique_violation_on (unique_violation "email" value) "username" w
  = (Resolved true, w).
Proof.
  intros Hvalue.
  unfold is_unique_violation_on, unique_violation. cbn [exn_code exn_detail].
  rewrite bool_decide_eq_true_2 by done. unfold mret, Async_ret.
  do 3 f_equal. do 3 apply includes_append_l. by apply includes_append_r.
Qed.

(** *** register *)

(** [register] past its three checks. *)
Lemma register_checked (options : RegisterInput) :
  (3 <= String.length (RegisterInput.username options))%nat →
  JS.includes (RegisterInput.email options) "@" = true →
  (3 <= String.length (RegisterInput.password options))%nat →
  ∀ w, ∃ k, register options w = (hash (RegisterInput.password options) ≫= k) w
    ∧ k = λ hashedPassword,
        try_catch
          (u ← User_insert (RegisterInput.username options)
                 (RegisterInput.email options) hashedPassword;
           session_set_userId (User.id u);;
           mret (response_user u))
          (λ error : Exn,
             on_username ← is_unique_violation_on error "username";
             if (on_username : bool)
             then mret (response_error "username"
                          "An account with this username already exists !")
             else
               on_email ← is_unique_violation_on error "email";
               if (on_email : bool)
               then mret (response_error "email"
                            "An account with this email already exists !")
               else mret (response_error "username"
                            "An unknown error occured when creating your account !")).
Proof.
  intros Hu He Hp w. eexists. split; [| reflexivity].
  unfold register.
  rewrite (proj2 (Z.leb_gt _ _)) by lia. rewrite He. cbn [negb].
  by rewrite (proj2 (Z.leb_gt _ _)) by lia.
Qed.

(** X1. A registration that passes the checks and meets no taken username
    or email appends one row, with the next id of the sequence and the
    digest of the password (not the password), binds that id into the
    session and returns the row; it hashes, inserts and binds, in this
    order. *)
Theorem register_creates_user (options : RegisterInput) (w : World) :
  (3 <= String.length (RegisterInput.username options))%nat →
  JS.includes (RegisterInput.email options) "@" = true →
  (3 <= String.length (RegisterInput.password options))%nat →
  username_taken (RegisterInput.username options) (users w) = false →
  email_taken (RegisterInput.email options) (users w) = false →
  let hashed := argon2_hash (entropy w) (RegisterInput.password options) in
  let created := User.mk (next_id w) (RegisterInput.username options)
                   (RegisterInput.email options) hashed in
  ∃ w', register options w = (Resolved (response_user created), w')
    ∧ users w' = (users w ++ [created])%list
    ∧ next_id w' = Z.succ (next_id w)
    ∧ session_userId w' = Some (next_id w)
    ∧ trace w'
      = (trace w ++ [EHash (RegisterInput.password options);
                     EInsert (RegisterInput.username options)
                       (RegisterInput.email options) hashed;
                     ESessionBind (next_id w)])%list.
Proof.
  intros Hu He Hp Hname Hmail.
  destruct (register_checked options Hu He Hp w) as (k & -> & ->).
  unfold hash, draw, try_catch, User_insert, session_set_userId.
  unfold username_taken, email_taken in *. async. rewrite Hname, Hmail. cbn.
  eexists. repeat split. cbn. by rewrite <- !app_assoc.
Qed.

(** X2. A registration whose username is taken (and whose email is not)
    gets the field error on [username] that says so; no row is added and the
    session is left alone. *)
Theorem register_duplicate_username (options : RegisterInput) (w : World) :
  (3 <= String.length (RegisterInput.username options))%nat →
  JS.includes (RegisterInput.email options) "@" = true →
  (3 <= String.length (RegisterInput.password options))%nat →
  username_taken (RegisterInput.username options) (users w) = true →
  email_taken (RegisterInput.email options) (users w) = false →
  ∃ w', register options w
        = (Resolved (response_error "username"
                       "An account with this username already exists !"), w')
    ∧ users w' = users w ∧ session w' = session w.
Proof.
  intros Hu He Hp Hname Hmail.
  destruct (register_checked options Hu He Hp w) as (k & -> & ->).
  unfold hash, draw, try_catch, User_insert.
  unfold username_taken in *.
  unfold mbind, Async_bind, mret, Async_ret, emit, modify, read, reject.
  cbn [users set_trace set_entropy]. rewrite Hname.
  rewrite unique_violation_names_column. by eexists.
Qed.

(** X3. A registration whose email is taken (and whose username is not)
    gets the field error on [email] that says so, provided the email does
    not contain the word username; no row is added and the session is left
    alone. *)
Theorem register_duplicate_email (options : RegisterInput) (w : World) :
  (3 <= String.length (RegisterInput.username options))%nat →
  JS.includes (RegisterInput.email options) "@" = true →
  (3 <= String.length (RegisterInput.password options))%nat →
  username_taken (RegisterInput.username options) (users w) = false →
  email_taken (RegisterInput.email options) (users w) = true →
  JS.includes (RegisterInput.email options) "username" = false →
  ∃ w', register options w
        = (Resolved (response_error "email"
                       "An account with this email already exists !"), w')
    ∧ users w' = users w ∧ session w' = session w.
Proof.
  intros Hu He Hp Hname Hmail Hword.
  destruct (register_checked options Hu He Hp w) as (k & -> & ->).
  unfold hash, draw, try_catch, User_insert.
  unfold username_taken, email_taken in *.
  unfold mbind, Async_bind, mret, Async_ret, emit, modify, read, reject.
  cbn [users set_trace set_entropy]. rewrite Hname, Hmail.
  rewrite (email_violation_not_on_username _ _ Hword).
  rewrite unique_violation_names_column. by eexists.
Qed.

(** X4. When the taken email contains the word username, the handler finds
    that word in the detail of the violation and reports the conflict on the
    [username] field, although the username is free. *)
Theorem register_duplicate_email_blames_username (options : RegisterInput)
    (w : World) :
  (3 <= String.length (RegisterInput.username options))%nat →
  JS.includes (RegisterInput.email options) "@" = true →
  (3 <= String.length (RegisterInput.password options))%nat →
  username_taken (RegisterInput.username options) (users w) = false →
  email_taken (RegisterInput.email options) (users w) = true →
  JS.includes (RegisterInput.email options) "username" = true →
  ∃ w', register options w
        = (Resolved (response_error "username"
                       "An account with this username already exists !"), w')
    ∧ users w' = users w ∧ session w' = session w.
Proof.
  intros Hu He Hp Hname Hmail Hword.
  destruct (register_checked options Hu He Hp w) as (k & -> & ->).
  unfold hash, draw, try_catch, User_insert.
  unfold username_taken, email_taken in *.
  unfold mbind, Async_bind, mret, Async_ret, emit, modify, read, reject.
  cbn [users set_trace set_entropy]. rewrite Hname, Hmail.
  rewrite (email_violation_on_username _ _ Hword). by eexists.
Qed.

(** X5. After a successful registration, [login] with the same email and
    password succeeds from any session and returns the registered row,
    whenever argon2 verifies the password against the digest it produced. *)
Theorem register_then_login (options : RegisterInput) (w : World)
    (current : option Session) :
  (3 <= String.length (RegisterInput.username options))%nat →
  JS.includes (RegisterInput.email options) "@" = true →
  (3 <= String.length (RegisterInput.password options))%nat →
  username_taken (RegisterInput.username options) (users w) = false →
  email_taken (RegisterInput.email options) (users w) = false →
  argon2_verify (argon2_hash (entropy w) (RegisterInput.password options))
    (RegisterInput.password options) = true →
  ∃ created w1 w2,
    register options w = (Resolved (response_user created), w1)
    ∧ login (LoginInput.mk (RegisterInput.email options)
               (RegisterInput.password options)) (set_session current w1)
      = (Resolved (response_user created), w2)
    ∧ session_userId w2 = Some (User.id created).
Proof.
  intros Hu He Hp Hname Hmail Hverify.
  destruct (register_checked options Hu He Hp w) as (k & -> & ->).
  unfold hash, draw, try_catch, User_insert, session_set_userId.
  pose proof (find_by_email_fresh (RegisterInput.email options) (users w)
                (User.mk (next_id w) (RegisterInput.username options)
                   (RegisterInput.email options)
                   (argon2_hash (entropy w) (RegisterInput.password options)))
                Hmail eq_refl) as Hfind.
  unfold username_taken, email_taken in *. async. rewrite Hname, Hmail. cbn.
  eexists _, _, _. split; [reflexivity |].
  unfold login, User_findOne_where_email, verify, session_set_userId.
  async. rewrite Hfind. cbn. rewrite Hverify. cbn. done.
Qed.

(** *** login, logout and me *)

(** X6. After a successful [login], [me] in the same session answers with
    the row the store finds for the user's id, except that a user whose id
    is 0 gets [null]. *)
Theorem login_then_me (options : LoginInput) (w : World) (u : User) :
  find_by_email (LoginInput.email options) (users w) = Some u →
  argon2_verify (User.password u) (LoginInput.password options) = true →
  find_by_id (User.id u) (users w) = Some u →
  ∃ w1, login options w = (Resolved (response_user u), w1)
    ∧ (me w1).1 = Resolved (if User.id u =? 0 then None else Some u).
Proof.
  intros Hemail Hverify Hid.
  unfold login, User_findOne_where_email, verify, session_set_userId.
  async. rewrite Hemail. cbn. rewrite Hverify. cbn.
  eexists. split; [reflexivity |].
  unfold me, User_findOne. async. unfold JS.falsy_number.
  destruct (User.id u =? 0); cbn; [done |]. by rewrite Hid.
Qed.

(** X7. After a [logout] that succeeds, [me] answers [null]; after one that
    fails, [me] answers as it did before. *)
Theorem logout_then_me (w : World) :
  (store_fault w = None →
     ∃ w1, logout w = (Resolved true, w1) ∧ (me w1).1 = Resolved None)
  ∧ (∀ error, store_fault w = Some error →
       ∃ w1, logout w = (Resolved false, w1) ∧ (me w1).1 = (me w).1).
Proof.
  unfold logout, session_destroy, clearCookie. async. split.
  - intros ->. cbn. by eexists.
  - intros error ->. cbn. eexists. split; [reflexivity |].
    unfold me, User_findOne. async.
    change (session_userId (set_trace _ w)) with (session_userId w).
    destruct (no_userId (session_userId w)); [done |].
    by destruct (session_userId w).
Qed.

(** X8. After a successful [login] of a user whose id is not 0, the [email]
    field resolver shows that user's email and hides the email of every user
    with another id. *)
Theorem login_then_email (options : LoginInput) (w : World) (u : User) :
  find_by_email (LoginInput.email options) (users w) = Some u →
  argon2_verify (User.password u) (LoginInput.password options) = true →
  User.id u ≠ 0 →
  ∃ w1, login options w = (Resolved (response_user u), w1)
    ∧ email u w1 = User.email u
    ∧ ∀ other, User.id other ≠ User.id u → email other w1 = "".
Proof.
  intros Hemail Hverify Hnz.
  unfold login, User_findOne_where_email, verify, session_set_userId.
  async. rewrite Hemail. cbn. rewrite Hverify. cbn.
  eexists. split; [reflexivity |]. unfold email. cbn.
  unfold JS.falsy_number. rewrite (proj2 (Z.eqb_neq _ _) Hnz). cbn. split.
  - by rewrite bool_decide_eq_true_2.
  - intros other Hother. destruct (User.id other =? 0); [done |].
    rewrite bool_decide_eq_false_2; [done |]. congruence.
Qed.

(** *** changePassword and the tokens *)

Lemma with_password_ids (i : Z) (hashed : string) (rows : list User) :
  map User.id (with_password i hashed rows) = map User.id rows
  ∧ map User.username (with_password i hashed rows) = map User.username rows
  ∧ map User.email (with_password i hashed rows) = map User.email rows.
Proof.
  unfold with_password.
  induction rows as [| x rows (IHi & IHn & IHe)]; [done |]. cbn [map].
  rewrite IHi, IHn, IHe. by destruct (User.id x =? i).
Qed.

Lemma with_password_other (i : Z) (hashed : string) (rows : list User)
    (x : User) :
  In x rows → User.id x ≠ i → In x (with_password i hashed rows).
Proof.
  unfold with_password. intros Hin Hne. apply in_map_iff. exists x.
  split; [| done]. by rewrite (proj2 (Z.eqb_neq _ _) Hne).
Qed.

(** X9. After a successful [changePassword], [login] with the user's email
    and the new password succeeds and returns the row with the new digest,
    and [login] with a password that the new digest does not verify is
    refused on the [password] field. *)
Theorem changePassword_then_login (token newPassword wrong : string)
    (w : World) (u : User) :
  (3 <= String.length newPassword)%nat →
  redis_lookup (forgotPasswordPrefix +:+ token) w
  = Some (JS.number_to_string (User.id u)) →
  find_by_id (User.id u) (users w) = Some u →
  find_by_email (User.email u) (users w) = Some u →
  argon2_verify (argon2_hash (entropy w) newPassword) newPassword = true →
  argon2_verify (argon2_hash (entropy w) newPassword) wrong = false →
  let updated := User.mk (User.id u) (User.username u) (User.email u)
                   (argon2_hash (entropy w) newPassword) in
  ∃ w1 w2 w3,
    changePassword token newPassword w = (Resolved (response_user u), w1)
    ∧ login (LoginInput.mk (User.email u) newPassword) w1
      = (Resolved (response_user updated), w2)
    ∧ login (LoginInput.mk (User.email u) wrong) w1
      = (Resolved (response_error "password" "This password is not valid !"),
         w3).
Proof.
  intros Hlen Hstored Hid Hemail Hgood Hbad.
  destruct (changePassword_success token newPassword w _ _ u Hlen Hstored
              (number_to_string_truthy _) (parseInt_number_to_string _) Hid)
    as (w1 & Hrun & Husers & _).
  pose proof (find_by_email_with_password (User.email u)
                (argon2_hash (entropy w) newPassword) (users w) u Hemail)
    as Hfind.
  rewrite <- Husers in Hfind.
  exists w1. eexists _, _. split; [exact Hrun |].
  unfold login, User_findOne_where_email, verify, session_set_userId.
  async. rewrite Hfind. cbn. rewrite Hgood, Hbad. cbn. done.
Qed.

(** X10. A successful [changePassword] rewrites nothing but the password
    of the redeemed user: the ids, usernames and emails of the table are
    what they were, and every row with another id is still there. *)
Theorem changePassword_only_password (token newPassword : string)
    (w : World) (value : string) (i : Z) (u : User) :
  (3 <= String.length newPassword)%nat →
  redis_lookup (forgotPasswordPrefix +:+ token) w = Some value →
  JS.falsy_string value = false →
  JS.parseInt value = Some i →
  find_by_id i (users w) = Some u →
  ∃ w', changePassword token newPassword w = (Resolved (response_user u), w')
    ∧ map User.id (users w') = map User.id (users w)
    ∧ map User.username (users w') = map User.username (users w)
    ∧ map User.email (users w') = map User.email (users w)
    ∧ ∀ x, In x (users w) → User.id x ≠ User.id u → In x (users w').
Proof.
  intros Hlen Hget Htruthy Hparse Hfind.
  destruct (changePassword_success token newPassword w value i u
              Hlen Hget Htruthy Hparse Hfind) as (w' & Hrun & Husers & _).
  exists w'. split; [exact Hrun |]. rewrite Husers.
  destruct (with_password_ids (User.id u)
              (argon2_hash (entropy w) newPassword) (users w))
    as (Hi & Hn & He).
  repeat split; [done | done | done |].
  intros x Hin Hne. by apply with_password_other.
Qed.

(** X11. A token that [forgotPassword] issued is accepted by
    [changePassword] as long as fewer than 259200000 seconds have passed,
    and then only once. *)
Theorem issued_token_accepted_once (email newPassword again : string)
    (w : World) (u : User) (wait later : Z) :
  find_by_email email (users w) = Some u →
  find_by_id (User.id u) (users w) = Some u →
  smtp_fault w = None →
  (3 <= String.length newPassword)%nat →
  (3 <= String.length again)%nat →
  wait < 259200000 →
  ∃ w0 w1 w2,
    forgotPassword email w = (Resolved true, w0)
    ∧ changePassword (uuid_v4 (entropy w)) newPassword (advance wait w0)
      = (Resolved (response_user u), w1)
    ∧ changePassword (uuid_v4 (entropy w)) again (advance later w1)
      = (Resolved (response_error "newPassword" "The token expired !"), w2).
Proof. apply issued_token_redeems_once. Qed.

(** X12. Once 259200000 seconds have passed, [changePassword] refuses the
    token that [forgotPassword] issued and writes no password. *)
Theorem issued_token_expires (email newPassword : string)
    (w : World) (u : User) (wait : Z) :
  find_by_email email (users w) = Some u →
  smtp_fault w = None →
  (3 <= String.length newPassword)%nat →
  259200000 <= wait →
  ∃ w0 w1,
    forgotPassword email w = (Resolved true, w0)
    ∧ changePassword (uuid_v4 (entropy w)) newPassword (advance wait w0)
      = (Resolved (response_error "newPassword" "The token expired !"), w1)
    ∧ users w1 = users w.
Proof.
  intros Hemail Hup Hlen Hwait.
  rewrite (forgotPassword_found _ _ _ Hemail).
  unfold sendEmail, transporter_sendMail. async. rewrite Hup. cbn.
  eexists. match goal with |- ∃ w1, (_, ?x) = _ ∧ _ => set (w0 := x) end.
  eexists. split; [reflexivity |].
  rewrite changePassword_not_found; [done | done |].
  unfold redis_lookup. cbn. rewrite lookup_insert_eq.
  by rewrite (proj2 (Z.ltb_ge _ _)) by lia.
Qed.

(** X13. [forgotPassword] leaves every key of the store other than the one
    of the token it draws as it was: tokens issued before stay valid. *)
Theorem forgotPassword_keeps_other_keys (email : string) (w : World)
    (key : string) :
  key ≠ forgotPasswordPrefix +:+ uuid_v4 (entropy w) →
  redis_lookup key (forgotPassword email w).2 = redis_lookup key w.
Proof.
  intros Hkey.
  destruct (find_by_email email (users w)) as [u |] eqn:Hfound.
  - rewrite (forgotPassword_found _ _ _ Hfound).
    unfold sendEmail, transporter_sendMail. async.
    destruct (smtp_fault w); cbn; unfold redis_lookup; cbn;
      by rewrite lookup_insert_ne.
  - unfold forgotPassword, User_findOne_where_email. async.
    by rewrite Hfound.
Qed.

(** X14. Whatever its outcome, [changePassword] leaves every key of the
    store other than the one of its own token as it was. *)
Theorem changePassword_keeps_other_keys (token newPassword : string)
    (w : World) (key : string) :
  key ≠ forgotPasswordPrefix +:+ token →
  redis_lookup key (changePassword token newPassword w).2
  = redis_lookup key w.
Proof.
  intros Hkey.
  unfold changePassword, redis_get, User_findOne, hash, draw,
    User_update_password, redis_del, session_set_userId.
  destruct (Z.of_nat (String.length newPassword) <=? 2); [done |].
  async.
  change (redis_lookup ?k (set_trace ?f w)) with (redis_lookup k w).
  destruct (redis_lookup (forgotPasswordPrefix +:+ token) w) as [value |];
    [| done].
  destruct (JS.falsy_string value); [done |].
  destruct (JS.parseInt value) as [i |]; cbn; [| done].
  destruct (find_by_id i (users w)); cbn; [| done].
  unfold redis_lookup. cbn. by rewrite lookup_delete_ne.
Qed.

(** X15. Changing the password with one token does not revoke another
    token of the same user: the second still changes the password. *)
Theorem second_token_survives (first second pw1 pw2 : string)
    (w : World) (u : User) :
  first ≠ second →
  (3 <= String.length pw1)%nat → (3 <= String.length pw2)%nat →
  redis_lookup (forgotPasswordPrefix +:+ first) w
  = Some (JS.number_to_string (User.id u)) →
  redis_lookup (forgotPasswordPrefix +:+ second) w
  = Some (JS.number_to_string (User.id u)) →
  find_by_id (User.id u) (users w) = Some u →
  ∃ w1 w2 u',
    changePassword first pw1 w = (Resolved (response_user u), w1)
    ∧ changePassword second pw2 w1 = (Resolved (response_user u'), w2)
    ∧ User.id u' = User.id u
    ∧ find_by_id (User.id u) (users w2)
      = Some (User.mk (User.id u) (User.username u) (User.email u)
                (argon2_hash (entropy w1) pw2)).
Proof.
  intros Hne Hlen1 Hlen2 Hfirst Hsecond Hid.
  destruct (changePassword_success first pw1 w _ _ u Hlen1 Hfirst
              (number_to_string_truthy _) (parseInt_number_to_string _) Hid)
    as (w1 & Hrun1 & Husers1 & Hredis1 & _ & _ & Hnow1).
  assert (redis_lookup (forgotPasswordPrefix +:+ second) w1
          = Some (JS.number_to_string (User.id u))) as Hsecond1.
  { unfold redis_lookup in *. rewrite Hredis1, Hnow1.
    rewrite lookup_delete_ne; [done |].
    intros Heq. by apply (inj (String.append forgotPasswordPrefix)) in Heq. }
  pose proof (find_after_update (User.id u) (argon2_hash (entropy w) pw1)
                (users w) u Hid) as Hid1.
  rewrite <- Husers1 in Hid1.
  destruct (changePassword_success second pw2 w1 _ _ _ Hlen2 Hsecond1
              (number_to_string_truthy _) (parseInt_number_to_string _) Hid1)
    as (w2 & Hrun2 & Husers2 & _).
  eexists w1, w2, _. split; [exact Hrun1 |]. split; [exact Hrun2 |].
  split; [done |]. rewrite Husers2. cbn [User.id].
  by rewrite (find_after_update _ _ _ _ Hid1).
Qed.

(** X16. [forgotPassword] reads the table and writes one key: whether it
    resolves or rejects, the rows, the id sequence, the session and the
    cookie are what they were. *)
Theorem forgotPassword_reads_only (email : string) (w : World) :
  users (forgotPassword email w).2 = users w
  ∧ next_id (forgotPassword email w).2 = next_id w
  ∧ session (forgotPassword email w).2 = session w
  ∧ cookie (forgotPassword email w).2 = cookie w.
Proof.
  destruct (find_by_email email (users w)) as [u |] eqn:Hfound.
  - rewrite (forgotPassword_found _ _ _ Hfound).
    unfold sendEmail, transporter_sendMail. async.
    by destruct (smtp_fault w).
  - unfold forgotPassword, User_findOne_where_email. async.
    by rewrite Hfound.
Qed.

(** X17. The mail that [forgotPassword] hands over goes to the address
    asked for, and its body holds the link
    [CLIENT_URL/change-password/token] for the very token under which the
    user's id was stored. *)
Theorem forgotPassword_mails_stored_token (email : string) (w : World)
    (u : User) :
  find_by_email email (users w) = Some u →
  smtp_fault w = None →
  ∃ w' token body,
    forgotPassword email w = (Resolved true, w')
    ∧ outbox w' = (outbox w ++ [(email, body)])%list
    ∧ JS.includes body (CLIENT_URL +:+ "/change-password/" +:+ token) = true
    ∧ redis_lookup (forgotPasswordPrefix +:+ token) w'
      = Some (JS.number_to_string (User.id u)).
Proof.
  intros Hfound Hup. rewrite (forgotPassword_found _ _ _ Hfound).
  unfold sendEmail, transporter_sendMail. async. rewrite Hup. cbn.
  eexists _, (uuid_v4 (entropy w)), _. split; [reflexivity |].
  split; [reflexivity |]. split.
  - unfold emailBody. do 2 apply includes_append_l.
    rewrite <- (append_assoc "/change-password/" (uuid_v4 (entropy w))).
    rewrite <- (append_assoc CLIENT_URL).
    apply includes_self_append.
  - unfold redis_lookup. cbn. rewrite lookup_insert_eq.
    by rewrite (proj2 (Z.ltb_lt _ _)) by lia.
Qed.

(** X18. Whatever the input, [register] leaves the table as it was or
    appends a single row to it, and that row carries the username and the
    email of the input and a digest of its password; no row is removed or
    rewritten. *)
Theorem register_appends_at_most_one (options : RegisterInput) (w : World) :
  users (register options w).2 = users w
  ∨ ∃ i n,
      users (register options w).2
      = (users w ++ [User.mk i (RegisterInput.username options)
                       (RegisterInput.email options)
                       (argon2_hash n (RegisterInput.password options))])%list.
Proof.
  unfold register, hash, draw, try_catch, User_insert, session_set_userId,
    is_unique_violation_on.
  destruct (Z.of_nat (String.length (RegisterInput.username options)) <=? 2);
    [by left |].
  destruct (negb (JS.includes (RegisterInput.email options) "@"));
    [by left |].
  destruct (Z.of_nat (String.length (RegisterInput.password options)) <=? 2);
    [by left |].
  async.
  destruct (existsb _ (users w)); cbn.
  { left. repeat case_match; by simplify_eq/=. }
  destruct (existsb _ (users w)); cbn.
  { left. repeat case_match; by simplify_eq/=. }
  right. by eexists _, _.
Qed.

(** X19. After a successful [changePassword] for a user whose id is not 0,
    [me] in the same session answers with the row as it is stored now, with
    the new digest, while [changePassword] itself answered with the row as
    it was read before the update. *)
Theorem changePassword_then_me (token newPassword : string) (w : World)
    (u : User) :
  (3 <= String.length newPassword)%nat →
  redis_lookup (forgotPasswordPrefix +:+ token) w
  = Some (JS.number_to_string (User.id u)) →
  find_by_id (User.id u) (users w) = Some u →
  User.id u ≠ 0 →
  ∃ w1, changePassword token newPassword w = (Resolved (response_user u), w1)
    ∧ (me w1).1
      = Resolved (Some (User.mk (User.id u) (User.username u) (User.email u)
                          (argon2_hash (entropy w) newPassword))).
Proof.
  intros Hlen Hstored Hid Hnz.
  destruct (changePassword_success token newPassword w _ _ u Hlen Hstored
              (number_to_string_truthy _) (parseInt_number_to_string _) Hid)
    as (w1 & Hrun & Husers & _ & Hsession & _).
  exists w1. split; [exact Hrun |].
  unfold me, User_findOne. async. unfold session_userId. rewrite Hsession.
  cbn. unfold JS.falsy_number. rewrite (proj2 (Z.eqb_neq _ _) Hnz). cbn.
  rewrite Husers. by rewrite (find_after_update _ _ _ _ Hid).
Qed.

(** X20. After a successful registration, [me] in the same session answers
    with the new row, provided the id the sequence gave it is not 0 and no
    older row has that id. *)
Theorem register_then_me (options : RegisterInput) (w : World) :
  (3 <= String.length (RegisterInput.username options))%nat →
  JS.includes (RegisterInput.email options) "@" = true →
  (3 <= String.length (RegisterInput.password options))%nat →
  username_taken (RegisterInput.username options) (users w) = false →
  email_taken (RegisterInput.email options) (users w) = false →
  next_id w ≠ 0 →
  find_by_id (next_id w) (users w) = None →
  ∃ created w1,
    register options w = (Resolved (response_user created), w1)
    ∧ (me w1).1 = Resolved (Some created).
Proof.
  intros Hu He Hp Hname Hmail Hnz Hfresh.
  destruct (register_checked options Hu He Hp w) as (k & -> & ->).
  unfold hash, draw, try_catch, User_insert, session_set_userId.
  pose proof (find_by_id_fresh (next_id w) (users w)
                (User.mk (next_id w) (RegisterInput.username options)
                   (RegisterInput.email options)
                   (argon2_hash (entropy w) (RegisterInput.password options)))
                Hfresh eq_refl) as Hfind.
  unfold username_taken, email_taken in *. async. rewrite Hname, Hmail. cbn.
  eexists _, _. split; [reflexivity |].
  unfold me, User_findOne. async. unfold JS.falsy_number.
  rewrite (proj2 (Z.eqb_neq _ _) Hnz). cbn. by rewrite Hfind.
Qed.

End UserResolver.

(** ** The resolvers at work in the sample installation *)

Example parseInt_skips_space_and_stops : JS.parseInt "  42abc" = Some 42.
Proof. reflexivity. Qed.

Example parseInt_reads_hexadecimal : JS.parseInt "0x1F" = Some 31.
Proof. reflexivity. Qed.

Example parseInt_of_no_digit_is_NaN : JS.parseInt "abc" = None.
Proof. reflexivity. Qed.

Example number_to_string_negative : JS.number_to_string (-30) = "-30".
Proof. reflexivity. Qed.

Example register_reports_username_first :
  register Sample.hash (RegisterInput.mk "al" "no-at-sign" "pw") Sample.world
  = (Resolved (response_error "username"
                 "Username should be at least 3 characters long !"),
     Sample.world).
Proof. reflexivity. Qed.

Example register_reports_email_before_password :
  register Sample.hash (RegisterInput.mk "alice" "no-at-sign" "pw") Sample.world
  = (Resolved (response_error "email" "This is not a valid email !"),
     Sample.world).
Proof. reflexivity. Qed.

Example register_binds_the_new_user :
  (register Sample.hash (RegisterInput.mk "alice" "alice@example.com" "secret")
     Sample.world).1
  = Resolved (response_user
                (User.mk 2 "alice" "alice@example.com" "$argon2$secret")).
Proof. reflexivity. Qed.

(** C1. The token that [forgotPassword] stores for bob expires 259200000
    seconds after it was issued, and three days and one second after the
    request [changePassword] still accepts it. *)
Theorem forgotPassword_token_outlives_three_days :
  redis (forgotPassword Sample.prefix Sample.client Sample.token
           "bob@example.com" Sample.world).2
    !! "forgot-password:token-0"
  = Some ("1", now Sample.world + 259200000)
  ∧ (changePassword Sample.prefix Sample.hash "token-0" "correct horse"
       (advance (259200 + 1)
          (forgotPassword Sample.prefix Sample.client Sample.token
             "bob@example.com" Sample.world).2)).1
    = Resolved (response_user Sample.bob).
Proof. split; vm_compute; reflexivity. Qed.



Lemma reset_token_redeems_once_witness :
  (3 <= String.length "correct horse")%nat
  ∧ (3 <= String.length "battery staple")%nat
  ∧ redis_lookup (Sample.prefix +:+ "token-0") Sample.issued
    = Some (JS.number_to_string (User.id Sample.bob))
  ∧ find_by_id (User.id Sample.bob) (users Sample.issued) = Some Sample.bob
  ∧ ∃ w1 w2,
      changePassword Sample.prefix Sample.hash "token-0" "correct horse"
        Sample.issued
      = (Resolved (response_user Sample.bob), w1)
      ∧ redis w1 !! (Sample.prefix +:+ "token-0") = None
      ∧ changePassword Sample.prefix Sample.hash "token-0" "battery staple"
          (advance 86400 w1)
        = (Resolved (response_error "newPassword" "The token expired !"), w2)
      ∧ users w2 = users w1.
Proof.
  split; [cbn; lia |]. split; [cbn; lia |].
  split; [reflexivity |]. split; [reflexivity |].
  apply (reset_token_redeems_once Sample.prefix Sample.hash "token-0"
           "correct horse" "battery staple" Sample.issued Sample.bob 86400);
    [cbn; lia | cbn; lia | reflexivity | reflexivity].
Defined.

Lemma register_validation_order_witness :
  ∃ m, register Sample.hash (RegisterInput.mk "alice" "alice@example.com" "pw")
         Sample.world
       = (Resolved {| user := None;
                      errors := Some [ {| field := "password";
                                          message := m |} ] |},
          Sample.world).
Proof.
  exact (register_validation_order Sample.hash
           (RegisterInput.mk "alice" "alice@example.com" "pw") Sample.world).
Defined.

Lemma login_discriminates_witness :
  (find_by_email "nobody@example.com" (users Sample.world) = None
   ∧ ∃ w', login Sample.verify (LoginInput.mk "nobody@example.com" "hunter2")
             Sample.world
           = (Resolved (response_error "email" "This account doesn't exist !"),
              w')
       ∧ session w' = session Sample.world)
  ∧ (find_by_email "bob@example.com" (users Sample.world) = Some Sample.bob
     ∧ Sample.verify (User.password Sample.bob) "wrong" = false
     ∧ ∃ w', login Sample.verify (LoginInput.mk "bob@example.com" "wrong")
               Sample.world
             = (Resolved
                  (response_error "password" "This password is not valid !"),
                w')
         ∧ session w' = session Sample.world)
  ∧ (Sample.verify (User.password Sample.bob) "hunter2" = true
     ∧ ∃ w', login Sample.verify (LoginInput.mk "bob@example.com" "hunter2")
               Sample.world
             = (Resolved (response_user Sample.bob), w')
         ∧ session_userId w' = Some (User.id Sample.bob)
         ∧ users w' = users Sample.world).
Proof.
  split; [| split].
  - split; [reflexivity |].
    apply (proj1 (login_discriminates Sample.verify
             (LoginInput.mk "nobody@example.com" "hunter2") Sample.world)).
    reflexivity.
  - split; [reflexivity |]. split; [reflexivity |].
    apply (proj1 (proj2 (login_discriminates Sample.verify
             (LoginInput.mk "bob@example.com" "wrong") Sample.world))
             Sample.bob);
      reflexivity.
  - split; [reflexivity |].
    apply (proj2 (proj2 (login_discriminates Sample.verify
             (LoginInput.mk "bob@example.com" "hunter2") Sample.world))
             Sample.bob);
      reflexivity.
Defined.

(** C6, as stated, fails: the user that [changePassword] returns for bob's
    token is the row read before the update, with the old digest, and not
    the row that the table holds afterwards. *)
Lemma changePassword_returns_row_read_before_update :
  (changePassword Sample.prefix Sample.hash "token-0" "correct horse"
     Sample.issued).1
  = Resolved (response_user
                (User.mk 1 "bob" "bob@example.com" "$argon2$hunter2"))
  ∧ find_by_id 1
      (users (changePassword Sample.prefix Sample.hash "token-0"
                "correct horse" Sample.issued).2)
    = Some (User.mk 1 "bob" "bob@example.com" "$argon2$correct horse")
  ∧ User.mk 1 "bob" "bob@example.com" "$argon2$hunter2"
    ≠ User.mk 1 "bob" "bob@example.com" "$argon2$correct horse".
Proof. split; [reflexivity |]. split; [reflexivity | discriminate]. Qed.

Lemma changePassword_sequence_witness :
  (3 <= String.length "correct horse")%nat
  ∧ redis_lookup (Sample.prefix +:+ "token-0") Sample.issued = Some "1"
  ∧ JS.parseInt "1" = Some 1
  ∧ find_by_id 1 (users Sample.issued) = Some Sample.bob
  ∧ ∃ w',
      changePassword Sample.prefix Sample.hash "token-0" "correct horse"
        Sample.issued
      = (Resolved (response_user Sample.bob), w')
      ∧ trace w'
        = (trace Sample.issued
             ++ [ERedisGet "forgot-password:token-0"; EFindOneById (Some 1);
                 EHash "correct horse";
                 EUpdatePassword 1 "$argon2$correct horse";
                 ERedisDel "forgot-password:token-0"; ESessionBind 1])%list
      ∧ find_by_id 1 (users w')
        = Some (User.mk 1 "bob" "bob@example.com" "$argon2$correct horse")
      ∧ redis w' !! "forgot-password:token-0" = None
      ∧ session_userId w' = Some 1.
Proof.
  split; [cbn; lia |]. split; [reflexivity |]. split; [reflexivity |].
  split; [reflexivity |].
  apply (proj1 (changePassword_sequence Sample.prefix Sample.hash "token-0"
                  "correct horse" Sample.issued) "1" 1 Sample.bob);
    [cbn; lia | reflexivity | reflexivity | reflexivity | reflexivity].
Defined.

Lemma changePassword_keeps_token_without_user_witness :
  (3 <= String.length "correct horse")%nat
  ∧ redis_lookup (Sample.prefix +:+ "token-0") Sample.orphan = Some "7"
  ∧ JS.falsy_string "7" = false
  ∧ JS.parseInt "7" = Some 7
  ∧ find_by_id 7 (users Sample.orphan) = None
  ∧ ∃ w',
      changePassword Sample.prefix Sample.hash "token-0" "correct horse"
        Sample.orphan
      = (Resolved (response_error "newPassword" "This user doesn't exist !"),
         w')
      ∧ redis w' = redis Sample.orphan
      ∧ redis_lookup (Sample.prefix +:+ "token-0") w' = Some "7".
Proof.
  split; [cbn; lia |].
  do 4 (split; [reflexivity |]).
  apply (changePassword_keeps_token_without_user Sample.prefix Sample.hash
           "token-0" "correct horse" Sample.orphan "7" 7);
    [cbn; lia | reflexivity | reflexivity | reflexivity | reflexivity].
Defined.

Lemma logout_outcomes_witness :
  (store_fault Sample.store_down = Some "ECONNRESET"
   ∧ ∃ w', logout Sample.cookieName Sample.store_down = (Resolved false, w')
       ∧ session w' = session Sample.store_down
       ∧ cookie w' = cookie Sample.store_down
       ∧ trace w' = (trace Sample.store_down ++ [ESessionDestroy])%list)
  ∧ (store_fault Sample.logged_in = None
     ∧ ∃ w', logout Sample.cookieName Sample.logged_in = (Resolved true, w')
         ∧ session w' = None
         ∧ cookie w' = false
         ∧ trace w'
           = (trace Sample.logged_in
                ++ [ESessionDestroy; EClearCookie Sample.cookieName])%list).
Proof.
  split.
  - split; [reflexivity |].
    apply (proj1 (logout_outcomes Sample.cookieName Sample.store_down)
             "ECONNRESET").
    reflexivity.
  - split; [reflexivity |].
    apply (proj1 (proj2 (logout_outcomes Sample.cookieName Sample.logged_in))).
    reflexivity.
Defined.

(** C9, as stated, fails: the session is bound to the id of the user looked
    at (both are 0), and the stored email is not returned. *)
Lemma email_hidden_from_self_with_id_zero :
  session_userId Sample.bound_to_zero = Some (User.id Sample.root)
  ∧ email Sample.root Sample.bound_to_zero ≠ User.email Sample.root.
Proof. split; [reflexivity | discriminate]. Qed.

Lemma email_visible_to_self_only_witness :
  (session_userId Sample.logged_in = Some (User.id Sample.bob)
   ∧ User.id Sample.bob ≠ 0
   ∧ email Sample.bob Sample.logged_in = "bob@example.com")
  ∧ (session_userId Sample.world ≠ Some (User.id Sample.bob)
     ∧ email Sample.bob Sample.world = "")
  ∧ (User.id Sample.root = 0
     ∧ email Sample.root Sample.bound_to_zero = "").
Proof.
  split; [| split].
  - split; [reflexivity |]. split; [discriminate |].
    apply (proj1 (email_visible_to_self_only Sample.bob Sample.logged_in));
      [reflexivity | discriminate].
  - split; [discriminate |].
    apply (proj1 (proj2 (email_visible_to_self_only Sample.bob Sample.world))).
    discriminate.
  - split; [reflexivity |].
    apply (proj1 (proj2 (proj2
             (email_visible_to_self_only Sample.root Sample.bound_to_zero)))).
    reflexivity.
Defined.

Lemma me_falsy_userId_witness :
  (session_userId Sample.bound_to_zero = Some 0
   ∧ me Sample.bound_to_zero = (Resolved None, Sample.bound_to_zero))
  ∧ (session_userId Sample.logged_in = Some 1
     ∧ 1 ≠ 0
     ∧ me Sample.logged_in = User_findOne (Some 1) Sample.logged_in)
  ∧ (session_userId Sample.world = None
     ∧ (me Sample.bound_to_zero).1 = (me Sample.world).1).
Proof.
  split; [| split].
  - split; [reflexivity |].
    apply (proj1 (me_falsy_userId Sample.bound_to_zero)). right. reflexivity.
  - split; [reflexivity |]. split; [discriminate |].
    apply (proj1 (proj2 (me_falsy_userId Sample.logged_in)) 1);
      [reflexivity | discriminate].
  - split; [reflexivity |].
    apply (proj2 (proj2 (me_falsy_userId Sample.bound_to_zero)) Sample.world);
      reflexivity.
Defined.

(** ** The further properties at work in the sample installation *)

(** Settles a side condition on concrete data by evaluating it. *)
Ltac evaluated :=
  first [ reflexivity
        | cbn; lia
        | discriminate
        | let H := fresh in intros H; vm_compute in H; discriminate H ].

Lemma register_creates_user_witness :
  (3 <= String.length "alice")%nat
  ∧ JS.includes "alice@example.com" "@" = true
  ∧ (3 <= String.length "secret")%nat
  ∧ username_taken "alice" (users Sample.world) = false
  ∧ email_taken "alice@example.com" (users Sample.world) = false
  ∧ ∃ w', register Sample.hash
            (RegisterInput.mk "alice" "alice@example.com" "secret")
            Sample.world
          = (Resolved (response_user
                         (User.mk 2 "alice" "alice@example.com"
                            "$argon2$secret")), w')
      ∧ users w'
        = [Sample.bob;
           User.mk 2 "alice" "alice@example.com" "$argon2$secret"]
      ∧ next_id w' = 3
      ∧ session_userId w' = Some 2
      ∧ trace w'
        = [EHash "secret";
           EInsert "alice" "alice@example.com" "$argon2$secret";
           ESessionBind 2].
Proof.
  do 5 (split; [evaluated |]).
  apply (register_creates_user Sample.hash
           (RegisterInput.mk "alice" "alice@example.com" "secret")
           Sample.world); evaluated.
Defined.

Lemma register_duplicate_username_witness :
  (3 <= String.length "bob")%nat
  ∧ JS.includes "robert@example.com" "@" = true
  ∧ (3 <= String.length "secret")%nat
  ∧ username_taken "bob" (users Sample.world) = true
  ∧ email_taken "robert@example.com" (users Sample.world) = false
  ∧ ∃ w', register Sample.hash
            (RegisterInput.mk "bob" "robert@example.com" "secret")
            Sample.world
          = (Resolved (response_error "username"
                         "An account with this username already exists !"),
             w')
      ∧ users w' = users Sample.world ∧ session w' = session Sample.world.
Proof.
  do 5 (split; [evaluated |]).
  apply (register_duplicate_username Sample.hash
           (RegisterInput.mk "bob" "robert@example.com" "secret")
           Sample.world); evaluated.
Defined.

Lemma register_duplicate_email_witness :
  (3 <= String.length "robert")%nat
  ∧ JS.includes "bob@example.com" "@" = true
  ∧ (3 <= String.length "secret")%nat
  ∧ username_taken "robert" (users Sample.world) = false
  ∧ email_taken "bob@example.com" (users Sample.world) = true
  ∧ JS.includes "bob@example.com" "username" = false
  ∧ ∃ w', register Sample.hash
            (RegisterInput.mk "robert" "bob@example.com" "secret")
            Sample.world
          = (Resolved (response_error "email"
                         "An account with this email already exists !"), w')
      ∧ users w' = users Sample.world ∧ session w' = session Sample.world.
Proof.
  do 6 (split; [evaluated |]).
  apply (register_duplicate_email Sample.hash
           (RegisterInput.mk "robert" "bob@example.com" "secret")
           Sample.world); evaluated.
Defined.

Lemma register_duplicate_email_blames_username_witness :
  (3 <= String.length "dave")%nat
  ∧ JS.includes "username@example.com" "@" = true
  ∧ (3 <= String.length "secret")%nat
  ∧ username_taken "dave" (users Scenario.with_carol) = false
  ∧ email_taken "username@example.com" (users Scenario.with_carol) = true
  ∧ JS.includes "username@example.com" "username" = true
  ∧ ∃ w', register Sample.hash
            (RegisterInput.mk "dave" "username@example.com" "secret")
            Scenario.with_carol
          = (Resolved (response_error "username"
                         "An account with this username already exists !"),
             w')
      ∧ users w' = users Scenario.with_carol
      ∧ session w' = session Scenario.with_carol.
Proof.
  do 6 (split; [evaluated |]).
  apply (register_duplicate_email_blames_username Sample.hash
           (RegisterInput.mk "dave" "username@example.com" "secret")
           Scenario.with_carol); evaluated.
Defined.

Lemma register_then_login_witness :
  (3 <= String.length "alice")%nat
  ∧ JS.includes "alice@example.com" "@" = true
  ∧ (3 <= String.length "secret")%nat
  ∧ username_taken "alice" (users Sample.world) = false
  ∧ email_taken "alice@example.com" (users Sample.world) = false
  ∧ Sample.verify (Sample.hash (entropy Sample.world) "secret") "secret" = true
  ∧ ∃ created w1 w2,
      register Sample.hash
        (RegisterInput.mk "alice" "alice@example.com" "secret") Sample.world
      = (Resolved (response_user created), w1)
      ∧ login Sample.verify (LoginInput.mk "alice@example.com" "secret")
          (set_session None w1)
        = (Resolved (response_user created), w2)
      ∧ session_userId w2 = Some (User.id created).
Proof.
  do 6 (split; [evaluated |]).
  apply (register_then_login Sample.hash Sample.verify
           (RegisterInput.mk "alice" "alice@example.com" "secret")
           Sample.world None); evaluated.
Defined.

Lemma login_then_me_witness :
  find_by_email "root@example.com" (users Scenario.only_root)
  = Some Sample.root
  ∧ Sample.verify (User.password Sample.root) "toor" = true
  ∧ find_by_id (User.id Sample.root) (users Scenario.only_root)
    = Some Sample.root
  ∧ ∃ w1, login Sample.verify (LoginInput.mk "root@example.com" "toor")
            Scenario.only_root
          = (Resolved (response_user Sample.root), w1)
      ∧ (me w1).1 = Resolved None.
Proof.
  do 3 (split; [evaluated |]).
  apply (login_then_me Sample.verify (LoginInput.mk "root@example.com" "toor")
           Scenario.only_root Sample.root); evaluated.
Defined.

Lemma logout_then_me_witness :
  (store_fault Sample.logged_in = None
   ∧ ∃ w1, logout Sample.cookieName Sample.logged_in = (Resolved true, w1)
       ∧ (me w1).1 = Resolved None)
  ∧ (store_fault Sample.store_down = Some "ECONNRESET"
     ∧ ∃ w1, logout Sample.cookieName Sample.store_down = (Resolved false, w1)
         ∧ (me w1).1 = (me Sample.store_down).1).
Proof.
  split.
  - split; [evaluated |].
    apply (proj1 (logout_then_me Sample.cookieName Sample.logged_in)).
    evaluated.
  - split; [evaluated |].
    apply (proj2 (logout_then_me Sample.cookieName Sample.store_down)
             "ECONNRESET").
    evaluated.
Defined.

Lemma login_then_email_witness :
  find_by_email "bob@example.com" (users Sample.world) = Some Sample.bob
  ∧ Sample.verify (User.password Sample.bob) "hunter2" = true
  ∧ User.id Sample.bob ≠ 0
  ∧ ∃ w1, login Sample.verify (LoginInput.mk "bob@example.com" "hunter2")
            Sample.world
          = (Resolved (response_user Sample.bob), w1)
      ∧ email Sample.bob w1 = User.email Sample.bob
      ∧ ∀ other, User.id other ≠ User.id Sample.bob → email other w1 = "".
Proof.
  do 3 (split; [evaluated |]).
  apply (login_then_email Sample.verify
           (LoginInput.mk "bob@example.com" "hunter2") Sample.world
           Sample.bob); evaluated.
Defined.

Lemma changePassword_then_login_witness :
  (3 <= String.length "correct horse")%nat
  ∧ redis_lookup (Sample.prefix +:+ "token-0") Sample.issued
    = Some (JS.number_to_string (User.id Sample.bob))
  ∧ find_by_id (User.id Sample.bob) (users Sample.issued) = Some Sample.bob
  ∧ find_by_email (User.email Sample.bob) (users Sample.issued)
    = Some Sample.bob
  ∧ Sample.verify (Sample.hash (entropy Sample.issued) "correct horse")
      "correct horse" = true
  ∧ Sample.verify (Sample.hash (entropy Sample.issued) "correct horse")
      "hunter2" = false
  ∧ ∃ w1 w2 w3,
      changePassword Sample.prefix Sample.hash "token-0" "correct horse"
        Sample.issued
      = (Resolved (response_user Sample.bob), w1)
      ∧ login Sample.verify (LoginInput.mk "bob@example.com" "correct horse")
          w1
        = (Resolved (response_user
                       (User.mk 1 "bob" "bob@example.com"
                          "$argon2$correct horse")), w2)
      ∧ login Sample.verify (LoginInput.mk "bob@example.com" "hunter2") w1
        = (Resolved
             (response_error "password" "This password is not valid !"), w3).
Proof.
  do 6 (split; [evaluated |]).
  apply (changePassword_then_login Sample.prefix Sample.hash Sample.verify
           "token-0" "correct horse" "hunter2" Sample.issued Sample.bob);
    evaluated.
Defined.

Lemma changePassword_only_password_witness :
  (3 <= String.length "correct horse")%nat
  ∧ redis_lookup (Sample.prefix +:+ "token-0") Scenario.two_tokens = Some "1"
  ∧ JS.falsy_string "1" = false
  ∧ JS.parseInt "1" = Some 1
  ∧ find_by_id 1 (users Scenario.two_tokens) = Some Sample.bob
  ∧ ∃ w', changePassword Sample.prefix Sample.hash "token-0" "correct horse"
            Scenario.two_tokens
          = (Resolved (response_user Sample.bob), w')
      ∧ map User.id (users w') = map User.id (users Scenario.two_tokens)
      ∧ map User.username (users w')
        = map User.username (users Scenario.two_tokens)
      ∧ map User.email (users w') = map User.email (users Scenario.two_tokens)
      ∧ ∀ x, In x (users Scenario.two_tokens) →
             User.id x ≠ User.id Sample.bob → In x (users w').
Proof.
  do 5 (split; [evaluated |]).
  apply (changePassword_only_password Sample.prefix Sample.hash "token-0"
           "correct horse" Scenario.two_tokens "1" 1 Sample.bob); evaluated.
Defined.

Lemma issued_token_accepted_once_witness :
  find_by_email "bob@example.com" (users Sample.world) = Some Sample.bob
  ∧ find_by_id (User.id Sample.bob) (users Sample.world) = Some Sample.bob
  ∧ smtp_fault Sample.world = None
  ∧ (3 <= String.length "correct horse")%nat
  ∧ (3 <= String.length "battery staple")%nat
  ∧ 3600 < 259200000
  ∧ ∃ w0 w1 w2,
      forgotPassword Sample.prefix Sample.client Sample.token
        "bob@example.com" Sample.world
      = (Resolved true, w0)
      ∧ changePassword Sample.prefix Sample.hash
          (Sample.token (entropy Sample.world)) "correct horse"
          (advance 3600 w0)
        = (Resolved (response_user Sample.bob), w1)
      ∧ changePassword Sample.prefix Sample.hash
          (Sample.token (entropy Sample.world)) "battery staple"
          (advance 60 w1)
        = (Resolved (response_error "newPassword" "The token expired !"), w2).
Proof.
  do 6 (split; [evaluated |]).
  apply (issued_token_accepted_once Sample.prefix Sample.client Sample.hash
           Sample.token "bob@example.com" "correct horse" "battery staple"
           Sample.world Sample.bob 3600 60); evaluated.
Defined.

Lemma issued_token_expires_witness :
  find_by_email "bob@example.com" (users Sample.world) = Some Sample.bob
  ∧ smtp_fault Sample.world = None
  ∧ (3 <= String.length "correct horse")%nat
  ∧ 259200000 <= 259200000
  ∧ ∃ w0 w1,
      forgotPassword Sample.prefix Sample.client Sample.token
        "bob@example.com" Sample.world
      = (Resolved true, w0)
      ∧ changePassword Sample.prefix Sample.hash
          (Sample.token (entropy Sample.world)) "correct horse"
          (advance 259200000 w0)
        = (Resolved (response_error "newPassword" "The token expired !"), w1)
      ∧ users w1 = users Sample.world.
Proof.
  do 4 (split; [evaluated |]).
  apply (issued_token_expires Sample.prefix Sample.client Sample.hash
           Sample.token "bob@example.com" "correct horse" Sample.world
           Sample.bob 259200000); evaluated.
Defined.

Lemma forgotPassword_keeps_other_keys_witness :
  "forgot-password:token-0"
  ≠ Sample.prefix +:+ Sample.token (entropy Sample.issued)
  ∧ redis_lookup "forgot-password:token-0"
      (forgotPassword Sample.prefix Sample.client Sample.token
         "bob@example.com" Sample.issued).2
    = redis_lookup "forgot-password:token-0" Sample.issued.
Proof.
  split; [evaluated |].
  apply (forgotPassword_keeps_other_keys Sample.prefix Sample.client
           Sample.token "bob@example.com" Sample.issued
           "forgot-password:token-0"); evaluated.
Defined.

Lemma changePassword_keeps_other_keys_witness :
  "forgot-password:token-1" ≠ Sample.prefix +:+ "token-0"
  ∧ redis_lookup "forgot-password:token-1"
      (changePassword Sample.prefix Sample.hash "token-0" "correct horse"
         Scenario.two_tokens).2
    = redis_lookup "forgot-password:token-1" Scenario.two_tokens.
Proof.
  split; [evaluated |].
  apply (changePassword_keeps_other_keys Sample.prefix Sample.hash "token-0"
           "correct horse" Scenario.two_tokens "forgot-password:token-1");
    evaluated.
Defined.

Lemma second_token_survives_witness :
  "token-0" ≠ "token-1"
  ∧ (3 <= String.length "correct horse")%nat
  ∧ (3 <= String.length "battery staple")%nat
  ∧ redis_lookup (Sample.prefix +:+ "token-0") Scenario.two_tokens
    = Some (JS.number_to_string (User.id Sample.bob))
  ∧ redis_lookup (Sample.prefix +:+ "token-1") Scenario.two_tokens
    = Some (JS.number_to_string (User.id Sample.bob))
  ∧ find_by_id (User.id Sample.bob) (users Scenario.two_tokens)
    = Some Sample.bob
  ∧ ∃ w1 w2 u',
      changePassword Sample.prefix Sample.hash "token-0" "correct horse"
        Scenario.two_tokens
      = (Resolved (response_user Sample.bob), w1)
      ∧ changePassword Sample.prefix Sample.hash "token-1" "battery staple" w1
        = (Resolved (response_user u'), w2)
      ∧ User.id u' = User.id Sample.bob
      ∧ find_by_id (User.id Sample.bob) (users w2)
        = Some (User.mk (User.id Sample.bob) (User.username Sample.bob)
                  (User.email Sample.bob)
                  (Sample.hash (entropy w1) "battery staple")).
Proof.
  do 6 (split; [evaluated |]).
  apply (second_token_survives Sample.prefix Sample.hash "token-0" "token-1"
           "correct horse" "battery staple" Scenario.two_tokens Sample.bob);
    evaluated.
Defined.

Lemma forgotPassword_mails_stored_token_witness :
  find_by_email "bob@example.com" (users Sample.world) = Some Sample.bob
  ∧ smtp_fault Sample.world = None
  ∧ ∃ w' token body,
      forgotPassword Sample.prefix Sample.client Sample.token
        "bob@example.com" Sample.world
      = (Resolved true, w')
      ∧ outbox w' = (outbox Sample.world ++ [("bob@example.com", body)])%list
      ∧ JS.includes body (Sample.client +:+ "/change-password/" +:+ token)
        = true
      ∧ redis_lookup (Sample.prefix +:+ token) w'
        = Some (JS.number_to_string (User.id Sample.bob)).
Proof.
  do 2 (split; [evaluated |]).
  apply (forgotPassword_mails_stored_token Sample.prefix Sample.client
           Sample.token "bob@example.com" Sample.world Sample.bob); evaluated.
Defined.

Lemma changePassword_then_me_witness :
  (3 <= String.length "correct horse")%nat
  ∧ redis_lookup (Sample.prefix +:+ "token-0") Sample.issued
    = Some (JS.number_to_string (User.id Sample.bob))
  ∧ find_by_id (User.id Sample.bob) (users Sample.issued) = Some Sample.bob
  ∧ User.id Sample.bob ≠ 0
  ∧ ∃ w1, changePassword Sample.prefix Sample.hash "token-0" "correct horse"
            Sample.issued
          = (Resolved (response_user Sample.bob), w1)
      ∧ (me w1).1
        = Resolved (Some (User.mk 1 "bob" "bob@example.com"
                            "$argon2$correct horse")).
Proof.
  do 4 (split; [evaluated |]).
  apply (changePassword_then_me Sample.prefix Sample.hash "token-0"
           "correct horse" Sample.issued Sample.bob); evaluated.
Defined.

Lemma register_then_me_witness :
  (3 <= String.length "alice")%nat
  ∧ JS.includes "alice@example.com" "@" = true
  ∧ (3 <= String.length "secret")%nat
  ∧ username_taken "alice" (users Sample.world) = false
  ∧ email_taken "alice@example.com" (users Sample.world) = false
  ∧ next_id Sample.world ≠ 0
  ∧ find_by_id (next_id Sample.world) (users Sample.world) = None
  ∧ ∃ created w1,
      register Sample.hash
        (RegisterInput.mk "alice" "alice@example.com" "secret") Sample.world
      = (Resolved (response_user created), w1)
      ∧ (me w1).1 = Resolved (Some created).
Proof.
  do 7 (split; [evaluated |]).
  apply (register_then_me Sample.hash
           (RegisterInput.mk "alice" "alice@example.com" "secret")
           Sample.world); evaluated.
Defined.
